(** * MediaServerMsgTest: the webhook notification relay

    A shallow embedding of [plugins.v2/mediaservermsgtest/__init__.py]:
    the path-to-category table, the rescan trigger ([_execute_curl_command]),
    the event handler ([send]) and the expiring-key dictionary
    ([_webhook_msg_keys] with its three private helpers).

    Python [str] values are byte strings (UTF-8); a Python dict keyed by
    strings whose order is never observed is a [gmap string _]; the host
    framework, the clock and the external services are oracles gathered in
    an environment record, and every call to one of them is recorded in a
    trace. *)

From Stdlib Require Import ZArith QArith Lia Bool Ascii String List.
From stdpp Require Import base option list strings pretty gmap.

Set Warnings "-register-all".

Local Open Scope string_scope.
Local Open Scope Z_scope.

(** ** Python string primitives *)

Module PyStr.

(** [pat in s] on [str]. *)
Fixpoint contains (pat s : string) : bool :=
  String.prefix pat s ||
  match s with
  | EmptyString => false
  | String _ r => contains pat r
  end.

(** [s.endswith(suf)]. *)
Fixpoint endswith (s suf : string) : bool :=
  String.eqb s suf ||
  match s with
  | EmptyString => false
  | String _ r => endswith r suf
  end.

(** [s.rfind(c)] for a one-character separator: the highest index of
    [c], or [-1]. *)
Fixpoint rfind (c : ascii) (s : string) : Z :=
  match s with
  | EmptyString => -1
  | String a r =>
      let j := rfind c r in
      if 0 <=? j then j + 1 else if Ascii.eqb a c then 0 else -1
  end.

(** [s[:i]] for [0 <= i]. *)
Definition slice_to (i : Z) (s : string) : string :=
  String.substring 0 (Z.to_nat i) s.

(** [c * n]. *)
Fixpoint repeat_char (c : ascii) (n : nat) : string :=
  match n with
  | O => EmptyString
  | S k => String c (repeat_char c k)
  end.

(** [s.rstrip(c)]. *)
Fixpoint rstrip (c : ascii) (s : string) : string :=
  match s with
  | EmptyString => EmptyString
  | String a r =>
      match rstrip c r with
      | EmptyString => if Ascii.eqb a c then EmptyString else String a EmptyString
      | r' => String a r'
      end
  end.

(** [s.split(sep)] for a one-character separator; the empty string
    splits into one empty piece. *)
Fixpoint split (sep : ascii) (s : string) : list string :=
  match s with
  | EmptyString => [EmptyString]
  | String a r =>
      if Ascii.eqb a sep then EmptyString :: split sep r
      else match split sep r with
           | [] => [String a EmptyString]
           | p :: ps => String a p :: ps
           end
  end.

(** Truth value of a [str]. *)
Definition nonempty (s : string) : bool := negb (String.eqb s "").

(** Truth value of an [Optional[str]]. *)
Definition truthy (o : option string) : bool :=
  match o with
  | Some s => nonempty s
  | None => false
  end.

(** [f"{o}"] for an [Optional[str]]. *)
Definition fmt (o : option string) : string :=
  match o with
  | Some s => s
  | None => "None"
  end.

(** [x if x else None]. *)
Definition or_none (o : option string) : option string :=
  if truthy o then o else None.

(** [x in l] for a list of [str]. *)
Definition mem (x : string) (l : list string) : bool :=
  existsb (String.eqb x) l.

End PyStr.

(** [posixpath.dirname]. *)
Definition dirname (p : string) : string :=
  let sep := "/"%char in
  let i := PyStr.rfind sep p + 1 in
  let head := PyStr.slice_to i p in
  if PyStr.nonempty head
     && negb (String.eqb head (PyStr.repeat_char sep (String.length head)))
  then PyStr.rstrip sep head
  else head.

(** ** Static tables *)

Definition _webhook_actions : list (string * string) :=
  [ ("library.new", "新入库");
    ("system.webhooktest", "测试");
    ("playback.start", "开始播放");
    ("playback.stop", "停止播放");
    ("user.authenticated", "登录成功");
    ("user.authenticationfailed", "登录失败");
    ("media.play", "开始播放");
    ("media.stop", "停止播放");
    ("PlaybackStart", "开始播放");
    ("PlaybackStop", "停止播放");
    ("item.rate", "标记了") ].

Definition _path_mapping : list (list string * Z) :=
  [ (["/media/Movie/Episode/Donghua"; "/media/Show/Episode/Donghua"], 0);
    (["/media/Movie/Episode/Anime"; "/media/Show/Episode/Anime"], 1);
    (["/media/Movie/Episode/Animation"; "/media/Show/Episode/Animation"], 2);
    (["/media/Movie/Documentary"; "/media/Show/Documentary"], 3);
    (["/media/Movie/Series/SeriesRU"; "/media/Show/Series/SeriesRU"], 4);
    (["/media/Movie/Series/SeriesCN"; "/media/Show/Series/SeriesCN"], 5);
    (["/media/Movie/Series/SeriesKO"; "/media/Show/Series/SeriesKO"], 6);
    (["/media/Movie/Series/SeriesJP"; "/media/Show/Series/SeriesJP"], 7);
    (["/media/Movie/Series/SeriesIN"; "/media/Show/Series/SeriesUS"], 8);
    (["/media/Movie/Series/SeriesUS"; "/media/Show/Zongyi/ZongyiCN"], 9);
    (["/media/Movie/Series/NSFW"; "/media/Show/Zongyi/ZongyiKO"], 10);
    (["/media/Show/Zongyi/ZongyiUS"], 11);
    (["/media/Show/Episode/NSFW"], 12) ].

Definition _webhook_images : list (string * string) :=
  [ ("emby", "https://emby.media/notificationicon.png");
    ("plex", "https://www.plex.tv/wp-content/uploads/2022/04/new-logo-process-lines-gray.png");
    ("jellyfin", "https://play-lh.googleusercontent.com/SCsUK3hCCRqkJbmLDctNYCfehLxsS4ggD1ZPHIFrrAN1Tn9yhjmGMPep2D9lMaaa9eQi") ].

(** [d.get(k)] on a literal dict with [str] keys; a [None] key is never
    among them. *)
Fixpoint dict_get {V : Type} (d : list (string * V)) (k : string) : option V :=
  match d with
  | [] => None
  | (k', v) :: rest => if String.eqb k' k then Some v else dict_get rest k
  end.

Definition dict_get_opt {V : Type} (d : list (string * V)) (k : option string) : option V :=
  match k with
  | Some s => dict_get d s
  | None => None
  end.

(** ** The nested loop of [_get_variable_one_from_path] *)

(** The inner [for pattern in path_patterns]: the first pattern that
    occurs in the path. *)
Fixpoint first_pattern (path_patterns : list string) (media_path : string) : option string :=
  match path_patterns with
  | [] => None
  | pattern :: rest =>
      if PyStr.contains pattern media_path then Some pattern
      else first_pattern rest media_path
  end.

(** The outer [for path_patterns, variable_value in self._path_mapping]. *)
Fixpoint scan_mapping (mapping : list (list string * Z)) (media_path : string)
  : option (string * Z) :=
  match mapping with
  | [] => None
  | (path_patterns, variable_value) :: rest =>
      match first_pattern path_patterns media_path with
      | Some pattern => Some (pattern, variable_value)
      | None => scan_mapping rest media_path
      end
  end.

(** ** Data received from and handed to the host *)

(** [WebhookEventInfo]: every field is optional. *)
Record WebhookEventInfo := {
  event : option string;
  channel : option string;
  server_name : option string;
  item_type : option string;
  item_name : option string;
  item_id : option string;
  item_path : option string;
  season_id : option string;
  episode_id : option string;
  tmdb_id : option string;
  overview : option string;
  percentage : option Q;
  ip : option string;
  device_name : option string;
  client : option string;
  user_name : option string;
  image_url : option string
}.

(** The members of the host's enumerations. *)
Inductive MediaType := MOVIE | TV | COLLECTION | UNKNOWN.
Inductive MediaImageType := Poster | Backdrop.
Inductive NotificationType := MediaServer | Plugin_ | Other_.

Inductive Level := INFO | WARNING | ERROR.

(** The exceptions [_execute_curl_command] tells apart. *)
Inductive exn :=
| TimeoutExpired
| FileNotFoundError
| AttributeError
| OtherException (msg : string).

Inductive Outcome (A : Type) :=
| Ok (a : A)
| Raise (e : exn).
Arguments Ok {A} a.
Arguments Raise {A} e.

(** The value handed to [json.dumps]; its serialisation is not modelled. *)
Inductive json :=
| JStr (s : string)
| JArr (items : list json)
| JObj (fields : list (string * json)).

Inductive Arg :=
| Lit (s : string)
| JsonDumps (j : json).

(** [subprocess.CompletedProcess]. *)
Record CompletedProcess := {
  returncode : Z;
  stdout : string;
  stderr : string
}.

(** A media server handed out by [MediaServerHelper]. *)
Record ServiceInfo := {
  is_inactive : bool;
  get_play_url : option string -> Outcome (option string)
}.

Definition Services := list (string * ServiceInfo).

(** Every interaction with the outside, in the order it happens. *)
Inductive Effect :=
| Log (lvl : Level) (msg : string)
| GetServices (type_filter : option string) (name_filters : option (list string))
| SubprocessRun (argv : list Arg) (timeout : Z)
| GetLocation (addr : string)
| ObtainSpecificImage (mediaid : string) (mtype : MediaType)
    (image_type : MediaImageType) (season episode : option string)
| GetPlayUrl (iid : option string)
| PostMessage (mtype : NotificationType) (title text : string)
    (image link : option string).

(** What the outside answers during one invocation of the handler; an
    answer depends on the arguments of the call only.  [time_time] is the
    reading of [time.time()], in seconds; [time_strftime] is the formatted
    local time; [str_round2 p] stands for the text of [round(float(p), 2)]. *)
Record Env := {
  time_time : Z;
  time_strftime : string;
  str_round2 : Q -> string;
  get_services : option string -> option (list string) -> Outcome (option Services);
  subprocess_run : list Arg -> Outcome CompletedProcess;
  get_location : string -> Outcome string;
  obtain_specific_image :
    string -> MediaType -> MediaImageType -> option string -> option string ->
    Outcome (option string);
  post_message :
    NotificationType -> string -> string -> option string -> option string ->
    Outcome unit
}.

(** The plugin object. *)
Record Plugin := {
  _enabled : bool;
  _add_play_link : bool;
  _mediaservers : list string;
  _types : list string;
  _webhook_msg_keys : gmap string Z
}.

Definition set_keys (p : Plugin) (d : gmap string Z) : Plugin :=
  {| _enabled := _enabled p;
     _add_play_link := _add_play_link p;
     _mediaservers := _mediaservers p;
     _types := _types p;
     _webhook_msg_keys := d |}.

(** ** The effect monad: the plugin object and the trace are threaded,
    an exception stops the computation and keeps the state reached. *)

Record World := {
  self : Plugin;
  trace : list Effect
}.

Definition M (A : Type) : Type := World -> Outcome A * World.

Definition ret {A} (a : A) : M A := fun w => (Ok a, w).

Definition bind {A B} (m : M A) (k : A -> M B) : M B :=
  fun w =>
    match m w with
    | (Ok a, w') => k a w'
    | (Raise e, w') => (Raise e, w')
    end.

Declare Scope py_scope.
Delimit Scope py_scope with py.
Notation "x <- m ;; k" := (bind m (fun x => k))
  (at level 100, m at next level, right associativity) : py_scope.
Notation "m ;;; k" := (bind m (fun _ => k))
  (at level 100, right associativity) : py_scope.
Local Open Scope py_scope.

Definition get_self : M Plugin := fun w => (Ok (self w), w).

Definition put_keys (d : gmap string Z) : M unit :=
  fun w => (Ok tt, {| self := set_keys (self w) d; trace := trace w |}).

Definition emit (e : Effect) : M unit :=
  fun w => (Ok tt, {| self := self w; trace := trace w ++ [e] |}).

Definition raise {A} (e : exn) : M A := fun w => (Raise e, w).

(** An external call: recorded, then answered by the environment. *)
Definition call {A} (e : Effect) (answer : Outcome A) : M A :=
  fun w => (answer, {| self := self w; trace := trace w ++ [e] |}).

Definition log (lvl : Level) (msg : string) : M unit := emit (Log lvl msg).

(** [try: body  except ...: handler]. *)
Definition try_except {A} (body : M A) (handler : exn -> M A) : M A :=
  fun w =>
    match body w with
    | (Ok a, w') => (Ok a, w')
    | (Raise e, w') => handler e w'
    end.

(** ** The expiring-key dictionary *)

(** [__add_element(key, duration=600)]. *)
Definition __add_element (env : Env) (key : string) (duration : Z) : M unit :=
  p <- get_self ;;
  let expiration_time := time_time env + duration in
  put_keys (<[key := expiration_time]> (_webhook_msg_keys p)).

(** [__remove_element(key)]: the dictionary is rebuilt without [key]. *)
Definition __remove_element (key : string) : M unit :=
  p <- get_self ;;
  put_keys (filter (fun kv => kv.1 <> key) (_webhook_msg_keys p)).

(** [__get_elements()]: the dictionary is rebuilt without the entries whose
    expiry has passed, and its keys are returned.  No method calls it. *)
Definition __get_elements (env : Env) : M (list string) :=
  p <- get_self ;;
  let current_time := time_time env in
  let kept := filter (fun kv => current_time < kv.2) (_webhook_msg_keys p) in
  put_keys kept ;;;
  ret (map fst (map_to_list kept)).

(** [key in self._webhook_msg_keys.keys()]. *)
Definition key_in_keys (key : string) (d : gmap string Z) : bool :=
  bool_decide (is_Some (d !! key)).

(** ** Media servers *)

(** [active_services[service_name] = service_info]. *)
Fixpoint dict_set {V : Type} (d : list (string * V)) (k : string) (v : V)
  : list (string * V) :=
  match d with
  | [] => [(k, v)]
  | (k', v') :: rest =>
      if String.eqb k' k then (k', v) :: rest else (k', v') :: dict_set rest k v
  end.

(** The loop of [service_infos] over [services.items()]. *)
Fixpoint keep_active (services active_services : Services) : M Services :=
  match services with
  | [] => ret active_services
  | (service_name, service_info) :: rest =>
      if is_inactive service_info then
        log WARNING ("媒体服务器 " +:+ service_name +:+ " 未连接，请检查配置") ;;;
        keep_active rest active_services
      else keep_active rest (dict_set active_services service_name service_info)
  end.

Definition is_nil {A} (l : list A) : bool :=
  match l with [] => true | _ => false end.

(** Truth value of an [Optional[dict]]. *)
Definition dict_truthy {A} (o : option (list A)) : bool :=
  match o with
  | Some (_ :: _) => true
  | _ => false
  end.

Definition service_infos (env : Env) (type_filter : option string)
  : M (option Services) :=
  p <- get_self ;;
  if is_nil (_mediaservers p) then
    log WARNING "尚未配置媒体服务器，请检查配置" ;;;
    ret None
  else
    services <- call (GetServices type_filter (Some (_mediaservers p)))
                     (get_services env type_filter (Some (_mediaservers p))) ;;
    match services with
    | Some ((_ :: _) as svcs) =>
        active_services <- keep_active svcs [] ;;
        if is_nil active_services then
          log WARNING "没有已连接的媒体服务器，请检查配置" ;;;
          ret None
        else ret (Some active_services)
    | _ =>
        log WARNING "获取媒体服务器实例失败，请检查配置" ;;;
        ret None
    end.

Definition service_info (env : Env) (name : option string) : M (option ServiceInfo) :=
  infos <- service_infos env None ;;
  ret (dict_get_opt (default [] infos) name).

(** ** The rescan trigger *)

Definition _get_variable_one_from_path (media_path : string) : M (option Z) :=
  if negb (PyStr.nonempty media_path) then ret None
  else
    match scan_mapping _path_mapping media_path with
    | Some (pattern, variable_value) =>
        log INFO ("路径 '" +:+ media_path +:+ "' 匹配模式 '" +:+ pattern
                  +:+ "' -> 变量一: " +:+ pretty variable_value) ;;;
        ret (Some variable_value)
    | None =>
        log WARNING ("路径 '" +:+ media_path +:+ "' 未匹配到任何已知模式") ;;;
        ret None
    end.

(** The second argument of the batch: lines 392-399. *)
Definition is_strm (media_path : string) : bool :=
  PyStr.nonempty media_path && PyStr.endswith media_path ".strm".

Definition variable_two_of (media_path : string) : string :=
  if is_strm media_path then dirname media_path else "".

(** The third argument: lines 403-409; [None] is the [else] branch. *)
Definition variable_three_of (typ : option string) : option string :=
  match typ with
  | Some t =>
      if String.eqb t "MOV" then Some "movies"
      else if PyStr.mem t ["TV"; "SHOW"] then Some "tvshows"
      else None
  | None => None
  end.

Definition json_data (variable_one : Z) (variable_two : string) : json :=
  JArr [
    JObj [("action", JStr "update");
          ("scope", JObj [("name", JStr "single");
                          ("args", JArr [JStr (pretty variable_one)])])];
    JObj [("action", JStr "scrape");
          ("scope", JObj [("name", JStr "new")])];
    JObj [("action", JStr "downloadMissingArtwork");
          ("scope", JObj [("name", JStr "dataSource");
                          ("args", JArr [JStr variable_two])])]
  ].

Definition api_key : string := "b23e06b9-8dbb-47cd-858e-72bde40fb3c6".

Definition api_url (variable_three : string) : string :=
  "http://localhost:7878/api/" +:+ variable_three.

Definition curl_command (variable_one : Z) (variable_two variable_three : string)
  : list Arg :=
  [ Lit "curl";
    Lit "-d"; JsonDumps (json_data variable_one variable_two);
    Lit "-H"; Lit "Content-Type: application/json";
    Lit "-H"; Lit ("api-key: " +:+ api_key);
    Lit "-X"; Lit "POST";
    Lit (api_url variable_three) ].

(** [str(e)] in the last handler. *)
Definition exn_str (e : exn) : string :=
  match e with
  | TimeoutExpired => "TimeoutExpired"
  | FileNotFoundError => "FileNotFoundError"
  | AttributeError => "AttributeError"
  | OtherException msg => msg
  end.

(** The body of the [try] of [_execute_curl_command]. *)
Definition _execute_curl_command_body (env : Env) (event_info : WebhookEventInfo)
  : M unit :=
  match PyStr.or_none (item_path event_info) with
  | None => log WARNING "无法获取媒体文件路径，跳过curl命令执行"
  | Some media_path =>
    variable_one <- _get_variable_one_from_path media_path ;;
    match variable_one with
    | None =>
        log WARNING ("无法从路径 '" +:+ media_path +:+ "' 确定变量一，跳过curl命令执行")
    | Some variable_one =>
        let variable_two := variable_two_of media_path in
        (if is_strm media_path
         then log INFO ("检测到.strm文件，变量二设置为: " +:+ variable_two)
         else log INFO "非.strm文件，变量二保持为空") ;;;
        let typ := item_type event_info in
        match variable_three_of typ with
        | None =>
            log WARNING ("未识别的媒体类型: " +:+ PyStr.fmt typ +:+ "，跳过curl命令执行")
        | Some variable_three =>
            log INFO "执行curl命令处理新入库事件:" ;;;
            log INFO ("  媒体路径: " +:+ media_path +:+ " -> 变量一: " +:+ pretty variable_one) ;;;
            log INFO ("  .strm检查: " +:+ media_path +:+ " -> 变量二: " +:+ variable_two) ;;;
            log INFO ("  媒体类型: " +:+ PyStr.fmt typ +:+ " -> 变量三: " +:+ variable_three) ;;;
            log INFO ("  API URL: " +:+ api_url variable_three) ;;;
            let argv := curl_command variable_one variable_two variable_three in
            result <- call (SubprocessRun argv 30) (subprocess_run env argv) ;;
            if returncode result =? 0 then
              log INFO "curl命令执行成功" ;;;
              if PyStr.nonempty (stdout result)
              then log INFO ("curl响应: " +:+ stdout result)
              else ret tt
            else
              log ERROR ("curl命令执行失败，返回码: " +:+ pretty (returncode result)) ;;;
              if PyStr.nonempty (stderr result)
              then log ERROR ("curl错误信息: " +:+ stderr result)
              else ret tt
        end
    end
  end.

Definition _execute_curl_command (env : Env) (event_info : WebhookEventInfo)
  : M unit :=
  try_except (_execute_curl_command_body env event_info)
    (fun e =>
       match e with
       | TimeoutExpired => log ERROR "curl命令执行超时（30秒）"
       | FileNotFoundError => log ERROR "未找到curl命令，请确保系统已安装curl"
       | _ => log ERROR ("执行curl命令时发生错误: " +:+ exn_str e)
       end).

(** ** The event handler *)

(** [event_info.event in _type.split("|")] for some [_type] of
    [self._types]: the [msgflag] loop. *)
Fixpoint msgflag (types : list string) (ev : option string) : bool :=
  match types with
  | [] => false
  | _type :: rest =>
      match ev with
      | Some e => if PyStr.mem e (PyStr.split "|" _type) then true else msgflag rest ev
      | None => msgflag rest ev
      end
  end.

(** [str(event_info.event) == kind]. *)
Definition event_is (event_info : WebhookEventInfo) (kind : string) : bool :=
  String.eqb (PyStr.fmt (event event_info)) kind.

Definition expiring_key (event_info : WebhookEventInfo) : string :=
  PyStr.fmt (item_id event_info) +:+ "-" +:+ PyStr.fmt (client event_info)
  +:+ "-" +:+ PyStr.fmt (user_name event_info).

(** Lines 493-530: [true] when none of the early returns is taken. *)
Definition accept (env : Env) (event_data : option WebhookEventInfo) : M bool :=
  p <- get_self ;;
  if negb (_enabled p) then ret false
  else
    match event_data with
    | None => ret false
    | Some event_info =>
        if negb (PyStr.truthy (dict_get_opt _webhook_actions (event event_info)))
        then ret false
        else if negb (msgflag (_types p) (event event_info)) then
          log INFO ("未开启 " +:+ PyStr.fmt (event event_info) +:+ " 类型的消息通知") ;;;
          ret false
        else
          infos <- service_infos env None ;;
          if negb (dict_truthy infos) then
            log INFO "未开启任一媒体服务器的消息通知" ;;;
            ret false
          else
            named <- (if PyStr.truthy (server_name event_info)
                      then svc <- service_info env (server_name event_info) ;;
                           ret (negb (bool_decide (is_Some svc)))
                      else ret false) ;;
            if (named : bool) then
              log INFO ("未开启媒体服务器 " +:+ PyStr.fmt (server_name event_info)
                        +:+ " 的消息通知") ;;;
              ret false
            else
              typed <- (if PyStr.truthy (channel event_info)
                        then infos <- service_infos env (channel event_info) ;;
                             ret (negb (dict_truthy infos))
                        else ret false) ;;
              if (typed : bool) then
                log INFO ("未开启媒体服务器类型 " +:+ PyStr.fmt (channel event_info)
                          +:+ " 的消息通知") ;;;
                ret false
              else ret true
    end.

(** Lines 548-556. *)
Definition message_title (event_info : WebhookEventInfo) : string :=
  let action := PyStr.fmt (dict_get_opt _webhook_actions (event event_info)) in
  match item_type event_info with
  | Some t =>
      if PyStr.mem t ["TV"; "SHOW"] then action +:+ "剧集 " +:+ PyStr.fmt (item_name event_info)
      else if String.eqb t "MOV" then action +:+ "电影 " +:+ PyStr.fmt (item_name event_info)
      else if String.eqb t "AUD" then action +:+ "有声书 " +:+ PyStr.fmt (item_name event_info)
      else action
  | None => action
  end.

(** Truth value of an [Optional[float]]. *)
Definition float_truthy (o : option Q) : bool :=
  match o with
  | Some q => negb (Qeq_bool q 0)
  | None => false
  end.

(** ["\n".join(l)]. *)
Fixpoint join_lines (l : list string) : string :=
  match l with
  | [] => ""
  | [x] => x
  | x :: rest => x +:+ String "010" "" +:+ join_lines rest
  end.

(** Lines 558-576. *)
Definition message_content (env : Env) (event_info : WebhookEventInfo) : M string :=
  let t1 := if PyStr.truthy (user_name event_info)
            then ["用户：" +:+ PyStr.fmt (user_name event_info)] else [] in
  let t2 := if PyStr.truthy (device_name event_info)
            then ["设备：" +:+ PyStr.fmt (client event_info) +:+ " "
                  +:+ PyStr.fmt (device_name event_info)] else [] in
  t3 <- (if PyStr.truthy (ip event_info)
         then let addr := PyStr.fmt (ip event_info) in
              location <- call (GetLocation addr) (get_location env addr) ;;
              ret ["IP地址：" +:+ addr +:+ " " +:+ location]
         else ret []) ;;
  let t4 := match percentage event_info with
            | Some q => if float_truthy (percentage event_info)
                        then ["进度：" +:+ str_round2 env q +:+ "%"] else []
            | None => []
            end in
  let t5 := if PyStr.truthy (overview event_info)
            then ["剧情：" +:+ PyStr.fmt (overview event_info)] else [] in
  let t6 := ["时间：" +:+ time_strftime env] in
  ret (join_lines (t1 ++ t2 ++ t3 ++ t4 ++ t5 ++ t6)%list).

(** Lines 578-601. *)
Definition resolve_image (env : Env) (event_info : WebhookEventInfo)
  : M (option string) :=
  let image := image_url event_info in
  image <- (if PyStr.truthy (tmdb_id event_info) then
              let mediaid := PyStr.fmt (tmdb_id event_info) in
              let season := PyStr.or_none (season_id event_info) in
              let episode := PyStr.or_none (episode_id event_info) in
              specific_image <-
                call (ObtainSpecificImage mediaid TV Backdrop season episode)
                     (obtain_specific_image env mediaid TV Backdrop season episode) ;;
              ret (if PyStr.truthy specific_image then specific_image else image)
            else ret image) ;;
  if negb (PyStr.truthy image)
  then ret (dict_get_opt _webhook_images (channel event_info))
  else ret image.

(** The loop of lines 617-620: the first non-empty play url, else the
    last answer. *)
Fixpoint first_play_url (services : Services) (iid : option string)
    (play_link : option string) : M (option string) :=
  match services with
  | [] => ret play_link
  | (_, service) :: rest =>
      play_link <- call (GetPlayUrl iid) (get_play_url service iid) ;;
      if PyStr.truthy play_link then ret play_link
      else first_play_url rest iid play_link
  end.

(** Lines 603-620. *)
Definition resolve_play_link (env : Env) (event_info : WebhookEventInfo)
  : M (option string) :=
  p <- get_self ;;
  if _add_play_link p then
    if PyStr.truthy (server_name event_info) then
      infos <- service_infos env None ;;
      match infos with
      | None => raise AttributeError
      | Some infos =>
          match dict_get_opt infos (server_name event_info) with
          | Some service =>
              call (GetPlayUrl (item_id event_info))
                   (get_play_url service (item_id event_info))
          | None => ret None
          end
      end
    else if PyStr.truthy (channel event_info) then
      services <- call (GetServices (channel event_info) None)
                       (get_services env (channel event_info) None) ;;
      match services with
      | None => raise AttributeError
      | Some services => first_play_url services (item_id event_info) None
      end
    else ret None
  else ret None.

(** Lines 622-629. *)
Definition update_keys (env : Env) (event_info : WebhookEventInfo) : M unit :=
  (if event_is event_info "playback.stop"
   then __add_element env (expiring_key event_info) 600
   else ret tt) ;;;
  if event_is event_info "playback.start"
  then __remove_element (expiring_key event_info)
  else ret tt.

(** The composed message: title, text, image, link. *)
Record Message := {
  msg_title : string;
  msg_text : string;
  msg_image : option string;
  msg_link : option string
}.

(** Lines 546-620: the message is composed. *)
Definition compose (env : Env) (event_info : WebhookEventInfo) : M Message :=
  let title := message_title event_info in
  text <- message_content env event_info ;;
  image <- resolve_image env event_info ;;
  play_link <- resolve_play_link env event_info ;;
  ret {| msg_title := title; msg_text := text;
         msg_image := image; msg_link := play_link |}.

(** Lines 546-638: what follows the duplicate check and the rescan. *)
Definition notify (env : Env) (event_info : WebhookEventInfo) : M unit :=
  m <- compose env event_info ;;
  update_keys env event_info ;;;
  call (PostMessage MediaServer (msg_title m) (msg_text m) (msg_image m) (msg_link m))
       (post_message env MediaServer (msg_title m) (msg_text m) (msg_image m) (msg_link m)).

(** Lines 532-638: an event that passed the filter. *)
Definition handle (env : Env) (event_info : WebhookEventInfo) : M unit :=
  p <- get_self ;;
  let key := expiring_key event_info in
  if event_is event_info "playback.stop" && key_in_keys key (_webhook_msg_keys p)
  then __add_element env key 600
  else
    (if event_is event_info "library.new"
     then log INFO "检测到新入库事件，准备执行curl命令" ;;;
          _execute_curl_command env event_info
     else ret tt) ;;;
    notify env event_info.

(** [send(event)], with [event_data] standing for [event.event_data]. *)
Definition send (env : Env) (event_data : option WebhookEventInfo) : M unit :=
  accepted <- accept env event_data ;;
  match accepted, event_data with
  | true, Some event_info => handle env event_info
  | _, _ => ret tt
  end.

(** ** Definitions used to state the properties *)

(** The table as the ordered list of its (pattern, category) pairs. *)
Definition flat_mapping (mapping : list (list string * Z)) : list (string * Z) :=
  flat_map (fun entry => map (fun pattern => (pattern, snd entry)) (fst entry)) mapping.

(** Follows the spec's words: the first pair, in table order, whose
    string is a substring of the path gives the category; no pair, none. *)
Definition resolveCategory (path : string) : option Z :=
  option_map snd
    (List.find (fun pc => PyStr.contains (fst pc) path) (flat_mapping _path_mapping)).

Definition w_add (w : World) (effs : list Effect) : World :=
  {| self := self w; trace := (trace w ++ effs)%list |}.

Definition respects (R : World -> World -> Prop) {A} (m : M A) : Prop :=
  forall w, R w (snd (m w)).

(** The plugin object is left as it was. *)
Definition same_self (w w' : World) : Prop := self w' = self w.

(** The trace grows by effects that all satisfy [P]. *)
Definition grows_by (P : Effect -> Prop) (w w' : World) : Prop :=
  exists effs, trace w' = (trace w ++ effs)%list /\ Forall P effs.

(** ** Concrete inputs used to exercise the statements *)

Module Sample.

Definition emby_service : ServiceInfo :=
  {| is_inactive := false;
     get_play_url := fun _ => Ok (Some "http://emby.local/web/item") |}.

(** One connected server, a clock reading [now], every call returns. *)
Definition env_at (now : Z) : Env :=
  {| time_time := now;
     time_strftime := "2025-01-01 12:00:00";
     str_round2 := fun _ => "50.0";
     get_services := fun _ _ => Ok (Some [("emby", emby_service)]);
     subprocess_run := fun _ => Ok {| returncode := 0; stdout := ""; stderr := "" |};
     get_location := fun _ => Ok "";
     obtain_specific_image := fun _ _ _ _ _ => Ok None;
     post_message := fun _ _ _ _ _ => Ok tt |}.

(** Same, but the lookup of a specific image answers [img]. *)
Definition env_image (img : option string) : Env :=
  {| time_time := 0;
     time_strftime := "2025-01-01 12:00:00";
     str_round2 := fun _ => "50.0";
     get_services := fun _ _ => Ok (Some [("emby", emby_service)]);
     subprocess_run := fun _ => Ok {| returncode := 0; stdout := ""; stderr := "" |};
     get_location := fun _ => Ok "";
     obtain_specific_image := fun _ _ _ _ _ => Ok img;
     post_message := fun _ _ _ _ _ => Ok tt |}.

(** Same, but the delivery of the message fails. *)
Definition env_delivery_fails : Env :=
  {| time_time := 0;
     time_strftime := "2025-01-01 12:00:00";
     str_round2 := fun _ => "50.0";
     get_services := fun _ _ => Ok (Some [("emby", emby_service)]);
     subprocess_run := fun _ => Ok {| returncode := 0; stdout := ""; stderr := "" |};
     get_location := fun _ => Ok "";
     obtain_specific_image := fun _ _ _ _ _ => Ok None;
     post_message := fun _ _ _ _ _ => Raise (OtherException "delivery failed") |}.

(** Same, but [curl] runs into the timeout. *)
Definition env_curl_timeout : Env :=
  {| time_time := 0;
     time_strftime := "2025-01-01 12:00:00";
     str_round2 := fun _ => "50.0";
     get_services := fun _ _ => Ok (Some [("emby", emby_service)]);
     subprocess_run := fun _ => Raise TimeoutExpired;
     get_location := fun _ => Ok "";
     obtain_specific_image := fun _ _ _ _ _ => Ok None;
     post_message := fun _ _ _ _ _ => Ok tt |}.

(** The plugin enabled for every group of the form, one server chosen. *)
Definition plugin_with (keys : gmap string Z) : Plugin :=
  {| _enabled := true;
     _add_play_link := false;
     _mediaservers := ["emby"];
     _types := ["library.new";
                "playback.start|media.play|PlaybackStart";
                "playback.stop|media.stop|PlaybackStop";
                "item.rate"; "system.webhooktest";
                "user.authenticated"; "user.authenticationfailed"];
     _webhook_msg_keys := keys |}.

Definition world_with (keys : gmap string Z) : World :=
  {| self := plugin_with keys; trace := [] |}.

(** An event of the given kind, item type, path, image and TMDB id. *)
Definition event_of (kind : string) (typ path img tmdb : option string)
  : WebhookEventInfo :=
  {| event := Some kind;
     channel := Some "emby";
     server_name := None;
     item_type := typ;
     item_name := Some "Film";
     item_id := Some "42";
     item_path := path;
     season_id := None;
     episode_id := None;
     tmdb_id := tmdb;
     overview := None;
     percentage := None;
     ip := None;
     device_name := Some "TV set";
     client := Some "Emby Web";
     user_name := Some "ann";
     image_url := img |}.

Definition stop_event : WebhookEventInfo :=
  event_of "playback.stop" (Some "MOV") None None None.


Definition key : string := "42-Emby Web-ann".

End Sample.

Definition is_log (e : Effect) : bool :=
  match e with Log _ _ => true | _ => false end.

Definition is_rescan (e : Effect) : bool :=
  match e with SubprocessRun _ _ => true | _ => false end.

Definition is_post (e : Effect) : bool :=
  match e with PostMessage _ _ _ _ _ => true | _ => false end.

(** The rescan call did not complete with status 0. *)
Definition rescan_failed (r : Outcome CompletedProcess) : Prop :=
  match r with
  | Ok result => returncode result <> 0
  | Raise _ => True
  end.

(** The duplicate test of line 536. *)
Definition is_duplicate_stop (event_info : WebhookEventInfo) (w : World) : bool :=
  event_is event_info "playback.stop"
  && key_in_keys (expiring_key event_info) (_webhook_msg_keys (self w)).

(** The dictionary after lines 622-629. *)
Definition keys_after (env : Env) (event_info : WebhookEventInfo)
    (d : gmap string Z) : gmap string Z :=
  let key := expiring_key event_info in
  let d1 := if event_is event_info "playback.stop"
            then <[key := time_time env + 600]> d else d in
  if event_is event_info "playback.start"
  then filter (fun kv => kv.1 <> key) d1 else d1.

(** Every lookup of a specific image asks for the backdrop of a TV item. *)
Definition lookup_is_tv_backdrop (e : Effect) : Prop :=
  match e with
  | ObtainSpecificImage _ mtype image_type _ _ => mtype = TV /\ image_type = Backdrop
  | _ => True
  end.

(** The answer of the image lookup, when the event has a TMDB id. *)
Definition specific_image_of (env : Env) (event_info : WebhookEventInfo)
  : Outcome (option string) :=
  if PyStr.truthy (tmdb_id event_info)
  then obtain_specific_image env (PyStr.fmt (tmdb_id event_info)) TV Backdrop
         (PyStr.or_none (season_id event_info))
         (PyStr.or_none (episode_id event_info))
  else Ok None.

(** A key is active when it is present and its expiry lies ahead. *)
Definition is_active (now : Z) (key : string) (d : gmap string Z) : Prop :=
  exists expiry, d !! key = Some expiry /\ now < expiry.

(** Two stop events for one key, at times 0 and 700, on an empty
    dictionary. *)
Definition two_stops : Outcome unit * World :=
  send (Sample.env_at 700) (Some Sample.stop_event)
    (snd (send (Sample.env_at 0) (Some Sample.stop_event) (Sample.world_with ∅))).

(** ** Kinds of effects, by the part of the handler that makes them *)

Definition is_directory (e : Effect) : bool :=
  match e with GetServices _ _ => true | _ => false end.

Definition is_location (e : Effect) : bool :=
  match e with GetLocation _ => true | _ => false end.

Definition is_play_url (e : Effect) : bool :=
  match e with GetPlayUrl _ => true | _ => false end.

(** What the filter may do: log and ask for the servers. *)
Definition accept_effect (e : Effect) : bool := is_log e || is_directory e.

(** What the rescan trigger may do: log and run the command. *)
Definition rescan_effect (e : Effect) : bool := is_log e || is_rescan e.

(** What the composition of the message may do: everything but running
    a command and posting. *)
Definition compose_effect (e : Effect) : bool := negb (is_rescan e) && negb (is_post e).

(** The call that delivers a composed message. *)
Definition post_of (m : Message) : Effect :=
  PostMessage MediaServer (msg_title m) (msg_text m) (msg_image m) (msg_link m).

(** What an early return of the handler gives back for the outcome of
    the filter. *)
Definition returned (r : Outcome bool) : Outcome unit :=
  match r with
  | Ok _ => Ok tt
  | Raise x => Raise x
  end.

(** The four ways a run of [send] can go, with the effects of the filter
    ([e_acc]), of the rescan trigger ([e_res]) and of the composition
    ([e_cmp]) told apart. *)
Inductive send_outcome (env : Env) (event_data : option WebhookEventInfo) (w : World)
  : Outcome unit * World -> Prop :=
| Rejected (r : Outcome bool) (e_acc : list Effect) :
    accept env event_data w = (r, w_add w e_acc) ->
    r <> Ok true ->
    Forall (fun e => accept_effect e = true) e_acc ->
    send_outcome env event_data w (returned r, w_add w e_acc)
| Duplicate (event_info : WebhookEventInfo) (e_acc : list Effect) :
    event_data = Some event_info ->
    accept env event_data w = (Ok true, w_add w e_acc) ->
    Forall (fun e => accept_effect e = true) e_acc ->
    is_duplicate_stop event_info w = true ->
    send_outcome env event_data w
      (Ok tt,
       {| self := set_keys (self w)
                    (<[expiring_key event_info := time_time env + 600]>
                       (_webhook_msg_keys (self w)));
          trace := (trace w ++ e_acc)%list |})
| ComposeRaised (event_info : WebhookEventInfo) (e_acc e_res e_cmp : list Effect)
    (x : exn) :
    event_data = Some event_info ->
    accept env event_data w = (Ok true, w_add w e_acc) ->
    Forall (fun e => accept_effect e = true) e_acc ->
    is_duplicate_stop event_info w = false ->
    Forall (fun e => rescan_effect e = true) e_res ->
    (length (List.filter is_rescan e_res) <= 1)%nat ->
    (event_is event_info "library.new" = false -> e_res = []) ->
    compose env event_info (w_add w (e_acc ++ e_res))
    = (Raise x, w_add w (e_acc ++ e_res ++ e_cmp)) ->
    Forall (fun e => compose_effect e = true) e_cmp ->
    send_outcome env event_data w (Raise x, w_add w (e_acc ++ e_res ++ e_cmp))
| Posted (event_info : WebhookEventInfo) (e_acc e_res e_cmp : list Effect)
    (m : Message) :
    event_data = Some event_info ->
    accept env event_data w = (Ok true, w_add w e_acc) ->
    Forall (fun e => accept_effect e = true) e_acc ->
    is_duplicate_stop event_info w = false ->
    Forall (fun e => rescan_effect e = true) e_res ->
    (length (List.filter is_rescan e_res) <= 1)%nat ->
    (event_is event_info "library.new" = false -> e_res = []) ->
    compose env event_info (w_add w (e_acc ++ e_res))
    = (Ok m, w_add w (e_acc ++ e_res ++ e_cmp)) ->
    Forall (fun e => compose_effect e = true) e_cmp ->
    send_outcome env event_data w
      (post_message env MediaServer (msg_title m) (msg_text m) (msg_image m) (msg_link m),
       {| self := set_keys (self w)
                    (keys_after env event_info (_webhook_msg_keys (self w)));
          trace := (trace w ++ e_acc ++ e_res ++ e_cmp ++ [post_of m])%list |}).

(** ** More concrete inputs *)

Module Sample2.

(** The plugin enabled for new items only. *)
Definition world_new_items_only : World :=
  {| self := {| _enabled := true; _add_play_link := false;
                _mediaservers := ["emby"]; _types := ["library.new"];
                _webhook_msg_keys := ∅ |};
     trace := [] |}.

(** The plugin enabled for the stop group, with no server chosen. *)
Definition world_no_servers : World :=
  {| self := {| _enabled := true; _add_play_link := false;
                _mediaservers := [];
                _types := ["playback.stop|media.stop|PlaybackStop"];
                _webhook_msg_keys := ∅ |};
     trace := [] |}.

End Sample2.

(** ** The value of [service_infos] *)

(** The dictionary the loop of [service_infos] builds. *)
Fixpoint active_of (services active_services : Services) : Services :=
  match services with
  | [] => active_services
  | (service_name, service_info) :: rest =>
      if is_inactive service_info then active_of rest active_services
      else active_of rest (dict_set active_services service_name service_info)
  end.

(** What [service_infos] returns or raises, from the configured names and
    the answer of the directory. *)
Definition active_services_of (env : Env) (mediaservers : list string)
    (type_filter : option string) : Outcome (option Services) :=
  if is_nil mediaservers then Ok None
  else
    match get_services env type_filter (Some mediaservers) with
    | Raise x => Raise x
    | Ok (Some ((_ :: _) as services)) =>
        if is_nil (active_of services []) then Ok None
        else Ok (Some (active_of services []))
    | Ok _ => Ok None
    end.

(** The verdict of the filter, from the settings, the event and the
    answers of the directory. *)
Definition accept_decision (env : Env) (p : Plugin)
    (event_data : option WebhookEventInfo) : Outcome bool :=
  if negb (_enabled p) then Ok false
  else
    match event_data with
    | None => Ok false
    | Some event_info =>
        if negb (PyStr.truthy (dict_get_opt _webhook_actions (event event_info)))
        then Ok false
        else if negb (msgflag (_types p) (event event_info)) then Ok false
        else
          match active_services_of env (_mediaservers p) None with
          | Raise x => Raise x
          | Ok infos =>
              if negb (dict_truthy infos) then Ok false
              else if PyStr.truthy (server_name event_info)
                      && negb (bool_decide
                                 (is_Some (dict_get_opt (default [] infos)
                                             (server_name event_info))))
              then Ok false
              else if PyStr.truthy (channel event_info) then
                match active_services_of env (_mediaservers p) (channel event_info) with
                | Raise x => Raise x
                | Ok typed => Ok (dict_truthy typed)
                end
              else Ok true
          end
    end.

Module Sample3.

(** A stop event as Plex sends it. *)
Definition plex_stop_event : WebhookEventInfo :=
  Sample.event_of "media.stop" (Some "MOV") None None None.

End Sample3.

Module Sample4.

(** The lookup of a specific image fails. *)
Definition env_lookup_fails : Env :=
  {| time_time := 0;
     time_strftime := "2025-01-01 12:00:00";
     str_round2 := fun _ => "50.0";
     get_services := fun _ _ => Ok (Some [("emby", Sample.emby_service)]);
     subprocess_run := fun _ => Ok {| returncode := 0; stdout := ""; stderr := "" |};
     get_location := fun _ => Ok "";
     obtain_specific_image := fun _ _ _ _ _ => Raise (OtherException "lookup failed");
     post_message := fun _ _ _ _ _ => Ok tt |}.

(** A start event with a TMDB id. *)
Definition start_event_with_tmdb : WebhookEventInfo :=
  Sample.event_of "playback.start" (Some "TV") None None (Some "603").

(** Two servers of which the second has a play url. *)
Definition two_services : Services :=
  [("a", {| is_inactive := false; get_play_url := fun _ => Ok None |});
   ("b", {| is_inactive := false; get_play_url := fun _ => Ok (Some "http://b/play") |})].

End Sample4.

(** The line that closes every message text. *)
Definition time_line (env : Env) : string := "时间：" +:+ time_strftime env.

(** A server that answers, and has no play url for the item. *)
Definition no_play_url (iid : option string) (entry : string * ServiceInfo) : Prop :=
  exists link, get_play_url (snd entry) iid = Ok link /\ PyStr.truthy link = false.

(** ** The configuration *)

(** [types_options] of [get_form]: title and value of each choice. *)
Definition types_options : list (string * string) :=
  [ ("新入库", "library.new");
    ("开始播放", "playback.start|media.play|PlaybackStart");
    ("停止播放", "playback.stop|media.stop|PlaybackStop");
    ("用户标记", "item.rate");
    ("测试", "system.webhooktest");
    ("登录成功", "user.authenticated");
    ("登录失败", "user.authenticationfailed") ].

(** The config dict handed to [init_plugin].  A field is [None] when its
    key is absent or holds [None]; [cfg_more] tells whether the dict has
    entries that show in none of the four fields, so that the dict is
    empty exactly when all fields are [None] and [cfg_more] is false. *)
Record Config := {
  cfg_enabled : option bool;
  cfg_types : option (list string);
  cfg_mediaservers : option (list string);
  cfg_add_play_link : option bool;
  cfg_more : bool
}.

(** Truth value of the dict. *)
Definition config_truthy (config : option Config) : bool :=
  match config with
  | None => false
  | Some c =>
      bool_decide (is_Some (cfg_enabled c))
      || bool_decide (is_Some (cfg_types c))
      || bool_decide (is_Some (cfg_mediaservers c))
      || bool_decide (is_Some (cfg_add_play_link c))
      || cfg_more c
  end.

(** [init_plugin(config)]; the two switches are kept by their truth
    value, which is all the other methods read of them. *)
Definition init_plugin (config : option Config) (p : Plugin) : Plugin :=
  match config with
  | Some c =>
      if config_truthy config then
        {| _enabled := default false (cfg_enabled c);
           _types := default [] (cfg_types c);
           _mediaservers := default [] (cfg_mediaservers c);
           _add_play_link := default false (cfg_add_play_link c);
           _webhook_msg_keys := _webhook_msg_keys p |}
      else p
  | None => p
  end.

(** [get_state()]. *)
Definition get_state (p : Plugin) : bool := _enabled p.

(** The default data of [get_form]. *)
Definition form_defaults : Config :=
  {| cfg_enabled := Some false;
     cfg_types := Some [];
     cfg_mediaservers := None;
     cfg_add_play_link := None;
     cfg_more := false |}.

(** A configuration with every choice of the form selected. *)
Definition config_all_kinds (servers : list string) : Config :=
  {| cfg_enabled := Some true;
     cfg_types := Some (map snd types_options);
     cfg_mediaservers := Some servers;
     cfg_add_play_link := Some false;
     cfg_more := false |}.

(** ** Runs of the handler *)

(** The host hands the events to [send] one after the other, each at its
    own time; whatever a call returns or raises, the plugin object and the
    trace it leaves are where the next call starts. *)
Fixpoint run_sends (events : list (Env * WebhookEventInfo)) (w : World) : World :=
  match events with
  | [] => w
  | (env, event_info) :: rest => run_sends rest (snd (send env (Some event_info) w))
  end.

(** The event is a [playback.start] for the key. *)
Definition starts_key (key : string) (event_info : WebhookEventInfo) : Prop :=
  event_is event_info "playback.start" = true /\ expiring_key event_info = key.

(** The event is a [playback.stop] for the key. *)
Definition stops_key (key : string) (event_info : WebhookEventInfo) : Prop :=
  event_is event_info "playback.stop" = true /\ expiring_key event_info = key.

(** ** What it means to go on with the notification *)

Definition is_lookup (e : Effect) : bool :=
  match e with ObtainSpecificImage _ _ _ _ _ => true | _ => false end.

(** From the world [w'] the handler composes the message and hands it to
    the channel: [r] is what this gives.  If the three steps of the
    composition return, the message has the title of the event, the text,
    image and link these steps returned, the dictionary is updated, the
    delivery is recorded last, and the outcome is the one of the channel;
    if a step raises, the exception is the outcome and the world is the
    one the step left. *)
Definition composed_then_posted (env : Env) (event_info : WebhookEventInfo)
    (w' : World) (r : Outcome unit * World) : Prop :=
  match compose env event_info w' with
  | (Ok m, w2) =>
      r = (post_message env MediaServer (msg_title m) (msg_text m) (msg_image m)
             (msg_link m),
           {| self := set_keys (self w')
                        (keys_after env event_info (_webhook_msg_keys (self w')));
              trace := (trace w2 ++ [PostMessage MediaServer (msg_title m)
                                       (msg_text m) (msg_image m) (msg_link m)])%list |})
      /\ msg_title m = message_title event_info
      /\ exists wa wb,
          message_content env event_info w' = (Ok (msg_text m), wa)
          /\ resolve_image env event_info wa = (Ok (msg_image m), wb)
          /\ resolve_play_link env event_info wb = (Ok (msg_link m), w2)
  | (Raise x, w2) => r = (Raise x, w2)
  end.

Module Sample5.

(** A new audiobook under a listed directory, with a TMDB id. *)
Definition new_audiobook : WebhookEventInfo :=
  Sample.event_of "library.new" (Some "AUD")
    (Some "/media/Movie/Documentary/a.mkv") None (Some "603").

(** A new movie under a listed directory. *)
Definition new_movie : WebhookEventInfo :=
  Sample.event_of "library.new" (Some "MOV")
    (Some "/media/Movie/Documentary/a.mkv") None None.

(** A movie that starts playing, with a TMDB id. *)
Definition movie_start : WebhookEventInfo :=
  Sample.event_of "playback.start" (Some "MOV") None None (Some "603").

(** A movie that stops playing, with a TMDB id. *)
Definition movie_stop : WebhookEventInfo :=
  Sample.event_of "playback.stop" (Some "MOV") None None (Some "603").

End Sample5.

Module Sample6.

(** [curl] runs into the timeout and the lookup of a specific image fails. *)
Definition env_rescan_and_lookup_fail : Env :=
  {| time_time := 0;
     time_strftime := "2025-01-01 12:00:00";
     str_round2 := fun _ => "50.0";
     get_services := fun _ _ => Ok (Some [("emby", Sample.emby_service)]);
     subprocess_run := fun _ => Raise TimeoutExpired;
     get_location := fun _ => Ok "";
     obtain_specific_image := fun _ _ _ _ _ => Raise (OtherException "lookup failed");
     post_message := fun _ _ _ _ _ => Ok tt |}.

(** A new movie under a listed directory, with a TMDB id. *)
Definition new_movie_with_tmdb : WebhookEventInfo :=
  Sample.event_of "library.new" (Some "MOV")
    (Some "/media/Movie/Documentary/a.mkv") None (Some "603").

End Sample6.

(** * Properties *)

(** ** Evaluations of the string primitives and of the table scan *)

Example scan_donghua :
  scan_mapping _path_mapping "/media/Movie/Episode/Donghua/foo.mkv"
  = Some ("/media/Movie/Episode/Donghua", 0).
Proof. reflexivity. Qed.

Example dirname_examples :
  dirname "/media/Show/Zongyi/ZongyiUS/bar.strm" = "/media/Show/Zongyi/ZongyiUS"
  /\ dirname "bar.strm" = "" /\ dirname "/bar.strm" = "/"
  /\ dirname "//bar" = "//" /\ dirname "a//b" = "a".
Proof. repeat split. Qed.

Example split_examples :
  PyStr.split "|" "playback.stop|media.stop|PlaybackStop"
  = ["playback.stop"; "media.stop"; "PlaybackStop"]
  /\ PyStr.split "|" "" = [""] /\ PyStr.split "|" "a|" = ["a"; ""].
Proof. repeat split. Qed.

(** ** String lemmas *)

#[local] Arguments String.append !_ _ / : simpl nomatch.

Lemma prefix_app (a s : string) :
  String.prefix a s = true <-> exists b, s = a +:+ b.
Proof.
  revert a. induction s as [|c s IH]; intros [|d a]; simpl.
  - split; [exists ""; reflexivity | reflexivity].
  - split; [discriminate | intros [b Hb]; discriminate].
  - split; [exists (String c s); reflexivity | reflexivity].
  - destruct (ascii_dec d c) as [->|Hne].
    + rewrite IH. split; intros [b Hb]; exists b; simpl in *; congruence.
    + split; [discriminate | intros [b Hb]; simpl in Hb; congruence].
Qed.

Lemma contains_app (pat s : string) :
  PyStr.contains pat s = true <-> exists a b, s = a +:+ pat +:+ b.
Proof.
  induction s as [|c s IH]; cbn [PyStr.contains]; rewrite orb_true_iff, prefix_app.
  - split.
    + intros [[b Hb]|?]; [|discriminate]. exists "", b. exact Hb.
    + intros [[|x a] [b Hb]]; [left; exists b; exact Hb | discriminate].
  - rewrite IH. split.
    + intros [[b Hb]|[a [b Hb]]].
      * exists "", b. exact Hb.
      * exists (String c a), b. simpl. congruence.
    + intros [[|x a] [b Hb]].
      * left. exists b. exact Hb.
      * right. exists a, b. simpl in Hb. congruence.
Qed.

Lemma endswith_app (s suf : string) :
  PyStr.endswith s suf = true <-> exists stem, s = stem +:+ suf.
Proof.
  induction s as [|c s IH]; cbn [PyStr.endswith]; rewrite orb_true_iff, String.eqb_eq.
  - split.
    + intros [<-|?]; [exists ""; reflexivity | discriminate].
    + intros [[|x a] Ha]; [left; exact Ha | discriminate].
  - rewrite IH. split.
    + intros [<-|[a Ha]]; [exists ""; reflexivity|].
      exists (String c a). simpl. congruence.
    + intros [[|x a] Ha]; [left; exact Ha|].
      right. exists a. simpl in Ha. congruence.
Qed.






(** ** The table scan *)

Lemma first_pattern_find (pats : list string) (v : Z) (path : string) :
  List.find (fun pc => PyStr.contains (fst pc) path) (map (fun pattern => (pattern, v)) pats)
  = option_map (fun pattern => (pattern, v)) (first_pattern pats path).
Proof.
  induction pats as [|pat pats IH]; simpl; [reflexivity|].
  destruct (PyStr.contains pat path); [reflexivity | exact IH].
Qed.

Lemma find_app_split {A} (f : A -> bool) (l1 l2 : list A) :
  List.find f (l1 ++ l2)%list
  = match List.find f l1 with Some x => Some x | None => List.find f l2 end.
Proof.
  induction l1 as [|x l1 IH]; simpl; [reflexivity|].
  destruct (f x); [reflexivity | exact IH].
Qed.

Lemma scan_mapping_find (mapping : list (list string * Z)) (path : string) :
  scan_mapping mapping path
  = List.find (fun pc => PyStr.contains (fst pc) path) (flat_mapping mapping).
Proof.
  induction mapping as [|[pats v] rest IH]; simpl; [reflexivity|].
  rewrite find_app_split, first_pattern_find.
  destruct (first_pattern pats path); simpl; [reflexivity | exact IH].
Qed.

(** [List.find] returns the first hit: everything before it misses. *)
Lemma find_first {A} (f : A -> bool) (l : list A) (x : A) :
  List.find f l = Some x <->
  exists pre post, l = (pre ++ x :: post)%list /\ f x = true
                   /\ Forall (fun y => f y = false) pre.
Proof.
  induction l as [|y l IH]; simpl.
  - split; [discriminate | intros (pre & post & H & _)].
    destruct pre; discriminate.
  - destruct (f y) eqn:Ey.
    + split.
      * intros [= ->]. exists [], l. repeat split; [assumption | constructor].
      * intros (pre & post & H & Hx & Hpre).
        destruct pre as [|z pre]; simpl in H; injection H as -> ->; [reflexivity|].
        apply Forall_cons_1 in Hpre as [Hz _]. simpl in Hz. congruence.
    + rewrite IH. split.
      * intros (pre & post & -> & Hx & Hpre).
        exists (y :: pre), post. repeat split; [assumption | constructor; assumption].
      * intros (pre & post & H & Hx & Hpre).
        destruct pre as [|z pre]; simpl in H; injection H as -> ->; [congruence|].
        apply Forall_cons_1 in Hpre as [_ Hpre]. exists pre, post. auto.
Qed.

Lemma find_none_iff {A} (f : A -> bool) (l : list A) :
  List.find f l = None <-> Forall (fun y => f y = false) l.
Proof.
  induction l as [|y l IH]; simpl.
  - split; [constructor | reflexivity].
  - destruct (f y) eqn:Ey.
    + split; [discriminate | intros H; apply Forall_cons_1 in H as [H _]; simpl in H; congruence].
    + rewrite IH. split; [constructor; assumption | intros H; apply Forall_cons_1 in H; tauto].
Qed.

Lemma resolveCategory_some (path : string) (v : Z) :
  resolveCategory path = Some v <->
  exists pre pat post,
    flat_mapping _path_mapping = (pre ++ (pat, v) :: post)%list
    /\ PyStr.contains pat path = true
    /\ Forall (fun pc => PyStr.contains (fst pc) path = false) pre.
Proof.
  unfold resolveCategory. split.
  - destruct (List.find _ _) as [[pat v']|] eqn:E; simpl; [|discriminate].
    intros [= ->]. apply find_first in E as (pre & post & H1 & H2 & H3).
    exists pre, pat, post. auto.
  - intros (pre & pat & post & H1 & H2 & H3).
    assert (List.find (fun pc => PyStr.contains (fst pc) path)
              (flat_mapping _path_mapping) = Some (pat, v)) as ->; [|reflexivity].
    apply find_first. exists pre, post. auto.
Qed.

Lemma resolveCategory_none (path : string) :
  resolveCategory path = None <->
  Forall (fun pc => PyStr.contains (fst pc) path = false) (flat_mapping _path_mapping).
Proof.
  unfold resolveCategory. rewrite <- find_none_iff.
  destruct (List.find _ _); simpl; split; congruence.
Qed.



(** C5. [_get_variable_one_from_path] returns the category of the first
    (pattern, category) pair, in table order and within an entry in
    pattern order, whose pattern occurs anywhere in the path, and nothing
    when no pattern occurs; the two paths of the spec resolve to 0 and 11,
    and a pattern in the middle of a path is found as well. *)
Theorem get_variable_one_first_match :
  (forall path w,
      fst (_get_variable_one_from_path path w) = Ok (resolveCategory path))
  /\ (forall path v,
         resolveCategory path = Some v <->
         exists pre pat post,
           flat_mapping _path_mapping = (pre ++ (pat, v) :: post)%list
           /\ PyStr.contains pat path = true
           /\ Forall (fun pc => PyStr.contains (fst pc) path = false) pre)
  /\ (forall path,
         resolveCategory path = None <->
         Forall (fun pc => PyStr.contains (fst pc) path = false)
                (flat_mapping _path_mapping))
  /\ (forall pat path,
         PyStr.contains pat path = true <-> exists a b, path = a +:+ pat +:+ b)
  /\ resolveCategory "/media/Movie/Episode/Donghua/foo.mkv" = Some 0
  /\ resolveCategory "/media/Show/Zongyi/ZongyiUS/bar.strm" = Some 11
  /\ resolveCategory "/mnt/nas/media/Movie/Documentary/a.mkv" = Some 3.
Proof.
  split; [|split; [|split; [|split; [|repeat split]]]].
  - intros path w. unfold _get_variable_one_from_path, resolveCategory.
    rewrite <- scan_mapping_find.
    destruct (PyStr.nonempty path) eqn:Hn; cbn [negb].
    + destruct (scan_mapping _path_mapping path) as [[pat v]|]; reflexivity.
    + unfold PyStr.nonempty in Hn. apply negb_false_iff, String.eqb_eq in Hn.
      subst path. reflexivity.
  - exact resolveCategory_some.
  - exact resolveCategory_none.
  - exact contains_app.
Qed.



(** ** Footprints of handler code

    A footprint is a preorder on worlds; a computation respects it when
    the world it leaves is related to the one it started in, whether it
    returns or raises. *)

Lemma w_add_nil (w : World) : w_add w [] = w.
Proof. destruct w. unfold w_add. simpl. rewrite app_nil_r. reflexivity. Qed.

Lemma w_add_add (w : World) (a b : list Effect) :
  w_add (w_add w a) b = w_add w (a ++ b)%list.
Proof. unfold w_add. simpl. rewrite app_assoc. reflexivity. Qed.

Section Footprint.
Variable R : World -> World -> Prop.
Hypothesis R_refl : forall w, R w w.
Hypothesis R_trans : forall a b c, R a b -> R b c -> R a c.

Lemma respects_ret {A} (a : A) : respects R (ret a).
Proof. intros w. apply R_refl. Qed.

Lemma respects_raise {A} (e : exn) : respects R (@raise A e).
Proof. intros w. apply R_refl. Qed.

Lemma respects_get_self : respects R get_self.
Proof. intros w. apply R_refl. Qed.

Lemma respects_bind {A B} (m : M A) (k : A -> M B) :
  respects R m -> (forall a, respects R (k a)) -> respects R (bind m k).
Proof.
  intros Hm Hk w. unfold bind. specialize (Hm w).
  destruct (m w) as [[a|e] w']; simpl in *; [|assumption].
  eapply R_trans; [exact Hm | apply Hk].
Qed.

Lemma respects_try {A} (body : M A) (handler : exn -> M A) :
  respects R body -> (forall e, respects R (handler e)) ->
  respects R (try_except body handler).
Proof.
  intros Hb Hh w. unfold try_except. specialize (Hb w).
  destruct (body w) as [[a|e] w']; simpl in *; [assumption|].
  eapply R_trans; [exact Hb | apply Hh].
Qed.
End Footprint.

Lemma same_self_refl w : same_self w w.
Proof. reflexivity. Qed.

Lemma same_self_trans a b c : same_self a b -> same_self b c -> same_self a c.
Proof. unfold same_self. congruence. Qed.

Lemma grows_by_refl P w : grows_by P w w.
Proof. exists []. split; [symmetry; apply app_nil_r | constructor]. Qed.

Lemma grows_by_trans P a b c : grows_by P a b -> grows_by P b c -> grows_by P a c.
Proof.
  intros (e1 & H1 & F1) (e2 & H2 & F2). exists (e1 ++ e2)%list. split.
  - rewrite H2, H1, app_assoc. reflexivity.
  - apply Forall_app. split; assumption.
Qed.

Lemma same_self_emit e : respects same_self (emit e).
Proof. intros w. reflexivity. Qed.

Lemma same_self_call {A} e (r : Outcome A) : respects same_self (call e r).
Proof. intros w. reflexivity. Qed.

Lemma grows_by_emit (P : Effect -> Prop) e : P e -> respects (grows_by P) (emit e).
Proof. intros H w. exists [e]. split; [reflexivity | repeat constructor; assumption]. Qed.

Lemma grows_by_call {A} (P : Effect -> Prop) e (r : Outcome A) :
  P e -> respects (grows_by P) (call e r).
Proof. intros H w. exists [e]. split; [reflexivity | repeat constructor; assumption]. Qed.

Lemma grows_by_put_keys P d : respects (grows_by P) (put_keys d).
Proof.
  intros w. exists []. split; [simpl; symmetry; apply app_nil_r | constructor].
Qed.

(** One structural step of a footprint proof. *)
Ltac footprint_step :=
  lazymatch goal with
  | |- respects _ (bind _ _) =>
      apply respects_bind;
      [first [exact same_self_trans | exact (grows_by_trans _)] | | intros ?]
  | |- respects _ (try_except _ _) =>
      apply respects_try;
      [first [exact same_self_trans | exact (grows_by_trans _)] | | intros ?]
  | |- respects _ (ret _) =>
      apply respects_ret; first [exact same_self_refl | exact (grows_by_refl _)]
  | |- respects _ (raise _) =>
      apply respects_raise; first [exact same_self_refl | exact (grows_by_refl _)]
  | |- respects _ get_self =>
      apply respects_get_self; first [exact same_self_refl | exact (grows_by_refl _)]
  | |- respects same_self (log _ _) => apply same_self_emit
  | |- respects same_self (call _ _) => apply same_self_call
  | |- respects (grows_by _) (log _ _) => apply grows_by_emit
  | |- respects (grows_by _) (call _ _) => apply grows_by_call
  | |- respects (grows_by _) (put_keys _) => apply grows_by_put_keys
  | |- respects _ (if ?b then _ else _) => destruct b
  | |- respects _ (match ?x with _ => _ end) => destruct x
  | |- respects _ (let _ := _ in _) => cbv zeta
  end.

(** ** Footprints of the helpers *)

Lemma keep_active_same_self services active :
  respects same_self (keep_active services active).
Proof.
  revert active. induction services as [|[name info] rest IH]; intros active; simpl.
  - footprint_step.
  - destruct (is_inactive info); [|apply IH].
    footprint_step; [footprint_step | apply IH].
Qed.

Lemma keep_active_grows (P : Effect -> Prop) services active :
  (forall lvl msg, P (Log lvl msg)) ->
  respects (grows_by P) (keep_active services active).
Proof.
  intros HP. revert active.
  induction services as [|[name info] rest IH]; intros active; simpl.
  - footprint_step.
  - destruct (is_inactive info); [|apply IH].
    footprint_step; [footprint_step; apply HP | apply IH].
Qed.

Lemma service_infos_same_self env type_filter :
  respects same_self (service_infos env type_filter).
Proof.
  unfold service_infos. repeat footprint_step; apply keep_active_same_self.
Qed.

Lemma accept_same_self env event_data :
  respects same_self (accept env event_data).
Proof.
  unfold accept, service_info.
  repeat first [apply service_infos_same_self | footprint_step].
Qed.

Example sample_key : expiring_key Sample.stop_event = Sample.key.
Proof. reflexivity. Qed.

(** ** Unrecognised kinds *)

Lemma dict_get_none {V} (d : list (string * V)) (k : string) :
  dict_get d k = None <-> ~ In k (map fst d).
Proof.
  induction d as [|[k' v] d IH]; simpl.
  - tauto.
  - destruct (String.eqb k' k) eqn:E.
    + apply String.eqb_eq in E. split; [discriminate | tauto].
    + apply String.eqb_neq in E. rewrite IH. tauto.
Qed.

(** C4. When the kind of the event is not a key of the kind-to-label
    table, [send] returns normally and leaves the world as it found it:
    the plugin (with its key dictionary) is unchanged and the trace has
    no new entry, so nothing was posted, no rescan was run, no service
    was queried and nothing was logged. *)
Theorem send_unrecognized_kind_silent (env : Env) (event_info : WebhookEventInfo)
    (w : World)
    (Hkind : forall kind, event event_info = Some kind ->
                          ~ In kind (map fst _webhook_actions)) :
  send env (Some event_info) w = (Ok tt, w).
Proof.
  assert (Hget : dict_get_opt _webhook_actions (event event_info) = None).
  { destruct (event event_info) as [kind|] eqn:E; [|reflexivity].
    apply dict_get_none. apply Hkind. reflexivity. }
  unfold send, accept, bind, get_self, ret.
  destruct (_enabled (self w)); cbn [negb]; [|reflexivity].
  rewrite Hget. reflexivity.
Qed.

Lemma send_unrecognized_kind_silent_witness :
  send (Sample.env_at 0)
       (Some (Sample.event_of "item.markplayed" (Some "MOV") None None None))
       (Sample.world_with ∅)
  = (Ok tt, Sample.world_with ∅).
Proof.
  apply send_unrecognized_kind_silent.
  intros kind [= <-] Hin. simpl in Hin.
  repeat (destruct Hin as [Hin|Hin]; [discriminate Hin|]). exact Hin.
Defined.

(** ** The rescan trigger *)

Ltac run_monad :=
  unfold try_except, bind, ret, log, emit, call, get_self, put_keys, raise;
  cbn [fst snd self trace negb].

Ltac close_world :=
  unfold w_add; cbn [self trace]; rewrite <- ?app_assoc; cbn [app]; reflexivity.

(** An item type outside MOV, TV and SHOW: nothing is run, the last
    thing the trigger does is to log a warning. *)
Lemma execute_curl_skipped env event_info w :
  variable_three_of (item_type event_info) = None ->
  exists effs msg,
    _execute_curl_command env event_info w = (Ok tt, w_add w effs)
    /\ forallb is_log effs = true
    /\ last effs = Some (Log WARNING msg).
Proof.
  intros H3. unfold _execute_curl_command, _execute_curl_command_body,
    _get_variable_one_from_path.
  unfold PyStr.or_none, PyStr.truthy.
  destruct (item_path event_info) as [path|].
  2:{ run_monad. do 2 eexists. split; [close_world | split; reflexivity]. }
  destruct (PyStr.nonempty path) eqn:Hne.
  2:{ run_monad. do 2 eexists. split; [close_world | split; reflexivity]. }
  rewrite Hne. cbn [negb].
  destruct (scan_mapping _path_mapping path) as [[pat v]|].
  2:{ run_monad. do 2 eexists. split; [close_world | split; reflexivity]. }
  rewrite H3. destruct (is_strm path); run_monad;
    do 2 eexists; (split; [close_world | split; reflexivity]).
Qed.

(** A resolvable path and a mapped item type: exactly one command is run,
    the one built from the three derived values; everything else the
    trigger does is logging, and a failure of the command ends in an
    error entry. *)
Lemma execute_curl_runs env event_info w path pat v seg :
  item_path event_info = Some path ->
  scan_mapping _path_mapping path = Some (pat, v) ->
  variable_three_of (item_type event_info) = Some seg ->
  let argv := curl_command v (variable_two_of path) seg in
  exists before after,
    _execute_curl_command env event_info w
    = (Ok tt, w_add w (before ++ SubprocessRun argv 30 :: after)%list)
    /\ forallb is_log before = true
    /\ forallb is_log after = true
    /\ (rescan_failed (subprocess_run env argv) ->
        exists msg, last after = Some (Log ERROR msg)).
Proof.
  intros Hp Hs H3. cbv zeta.
  assert (Hne : PyStr.nonempty path = true).
  { destruct path; [discriminate Hs | reflexivity]. }
  unfold _execute_curl_command, _execute_curl_command_body,
    _get_variable_one_from_path, PyStr.or_none, PyStr.truthy.
  rewrite Hp, Hne. run_monad. rewrite Hne. cbn [negb]. rewrite Hs.
  cbn [fst snd self trace]. rewrite H3.
  destruct (is_strm path); cbn [fst snd self trace];
    (destruct (subprocess_run env _) as [result|x];
     [ destruct (returncode result =? 0) eqn:Hc;
       [ destruct (PyStr.nonempty (stdout result))
       | destruct (PyStr.nonempty (stderr result)) ]
     | destruct x ]);
    (eexists [_; _; _; _; _; _; _], _;
     split; [close_world | split; [reflexivity | split; [reflexivity|]]]);
    cbn [rescan_failed];
    first [ intros _; eexists; reflexivity
          | intros Hf; apply Z.eqb_eq in Hc; contradiction ].
Qed.

(** Whatever happens inside, the trigger returns normally and leaves the
    plugin object alone. *)
Lemma execute_curl_returns env event_info w :
  exists effs, _execute_curl_command env event_info w = (Ok tt, w_add w effs).
Proof.
  unfold _execute_curl_command, _execute_curl_command_body,
    _get_variable_one_from_path, PyStr.or_none, PyStr.truthy.
  destruct (item_path event_info) as [path|];
    [destruct (PyStr.nonempty path) eqn:Hne|];
    run_monad; try (eexists; close_world).
  rewrite Hne. cbn [negb].
  destruct (scan_mapping _path_mapping path) as [[pat v]|];
    cbn [fst snd self trace]; try (eexists; close_world).
  destruct (is_strm path); cbn [fst snd self trace];
    (destruct (variable_three_of (item_type event_info)) as [seg|];
     cbn [fst snd self trace]; try (eexists; close_world));
    (destruct (subprocess_run env _) as [result|x];
     [ destruct (returncode result =? 0);
       [ destruct (PyStr.nonempty (stdout result))
       | destruct (PyStr.nonempty (stderr result)) ]
     | destruct x ]);
    eexists; close_world.
Qed.

(** ** How [send] decomposes *)

Lemma event_is_exclusive event_info k1 k2 :
  event_is event_info k1 = true -> k1 <> k2 -> event_is event_info k2 = false.
Proof.
  unfold event_is. intros H1 Hne. apply String.eqb_eq in H1.
  apply String.eqb_neq. congruence.
Qed.

Lemma send_accepted env event_info w w1 :
  accept env (Some event_info) w = (Ok true, w1) ->
  send env (Some event_info) w = handle env event_info w1.
Proof. intros H. unfold send, bind. rewrite H. reflexivity. Qed.

Lemma accepted_self env event_data w r w1 :
  accept env event_data w = (r, w1) -> self w1 = self w.
Proof.
  intros H. pose proof (accept_same_self env event_data w) as Hs.
  rewrite H in Hs. exact Hs.
Qed.

Lemma handle_duplicate env event_info w :
  is_duplicate_stop event_info w = true ->
  handle env event_info w
  = (Ok tt,
     {| self := set_keys (self w)
                  (<[expiring_key event_info := time_time env + 600]>
                     (_webhook_msg_keys (self w)));
        trace := trace w |}).
Proof.
  unfold is_duplicate_stop. intros H. unfold handle, __add_element. run_monad.
  rewrite H. reflexivity.
Qed.

Lemma handle_not_duplicate env event_info w :
  is_duplicate_stop event_info w = false ->
  exists effs,
    handle env event_info w = notify env event_info (w_add w effs)
    /\ (if event_is event_info "library.new"
        then exists effs',
            effs = Log INFO "检测到新入库事件，准备执行curl命令" :: effs'
            /\ _execute_curl_command env event_info
                 (w_add w [Log INFO "检测到新入库事件，准备执行curl命令"])
               = (Ok tt, w_add w effs)
        else effs = []).
Proof.
  unfold is_duplicate_stop. intros H. unfold handle. run_monad. rewrite H.
  destruct (event_is event_info "library.new").
  - cbn [fst snd self trace].
    change {| self := self w;
              trace := (trace w ++ [Log INFO "检测到新入库事件，准备执行curl命令"])%list |}
      with (w_add w [Log INFO "检测到新入库事件，准备执行curl命令"]).
    destruct (execute_curl_returns env event_info
                (w_add w [Log INFO "检测到新入库事件，准备执行curl命令"])) as [effs' He].
    rewrite He, w_add_add. eexists. split; [reflexivity|].
    exists effs'. split; reflexivity.
  - exists []. rewrite w_add_nil. split; reflexivity.
Qed.

Lemma set_keys_same (p : Plugin) : set_keys p (_webhook_msg_keys p) = p.
Proof. destruct p. reflexivity. Qed.

Lemma update_keys_run env event_info w :
  update_keys env event_info w
  = (Ok tt,
     {| self := set_keys (self w) (keys_after env event_info (_webhook_msg_keys (self w)));
        trace := trace w |}).
Proof.
  unfold update_keys, keys_after, __add_element, __remove_element. run_monad.
  destruct (event_is event_info "playback.stop");
    destruct (event_is event_info "playback.start");
    cbn [fst snd self trace set_keys _webhook_msg_keys _enabled _add_play_link
         _mediaservers _types];
    try reflexivity.
  rewrite set_keys_same. destruct w; reflexivity.
Qed.

Lemma notify_run env event_info w m w2 :
  compose env event_info w = (Ok m, w2) ->
  notify env event_info w
  = (post_message env MediaServer (msg_title m) (msg_text m) (msg_image m) (msg_link m),
     {| self := set_keys (self w2)
                  (keys_after env event_info (_webhook_msg_keys (self w2)));
        trace := (trace w2 ++ [PostMessage MediaServer (msg_title m) (msg_text m)
                                 (msg_image m) (msg_link m)])%list |}).
Proof.
  intros Hc. unfold notify. unfold bind at 1. rewrite Hc.
  unfold bind. rewrite update_keys_run. reflexivity.
Qed.

Lemma notify_raise env event_info w x w2 :
  compose env event_info w = (Raise x, w2) ->
  notify env event_info w = (Raise x, w2).
Proof. intros Hc. unfold notify, bind. rewrite Hc. reflexivity. Qed.

(** ** The composition leaves the plugin object alone *)

Lemma first_play_url_same_self services iid play_link :
  respects same_self (first_play_url services iid play_link).
Proof.
  revert play_link. induction services as [|[name svc] rest IH]; intros play_link; simpl.
  - footprint_step.
  - footprint_step; [footprint_step|]. destruct (PyStr.truthy a); [footprint_step | apply IH].
Qed.

Lemma compose_same_self env event_info :
  respects same_self (compose env event_info).
Proof.
  unfold compose, message_content, resolve_image, resolve_play_link.
  repeat first [apply service_infos_same_self | apply first_play_url_same_self
               | footprint_step].
Qed.

Lemma composed_self env event_info w r w2 :
  compose env event_info w = (r, w2) -> self w2 = self w.
Proof.
  intros H. pose proof (compose_same_self env event_info w) as Hs.
  rewrite H in Hs. exact Hs.
Qed.

(** ** The arguments of the image lookup *)

Ltac footprint :=
  repeat first [footprint_step | exact I | (split; reflexivity)].

Lemma service_infos_lookups env type_filter :
  respects (grows_by lookup_is_tv_backdrop) (service_infos env type_filter).
Proof.
  unfold service_infos.
  repeat first [apply keep_active_grows; intros; exact I | footprint_step | exact I].
Qed.

Lemma first_play_url_lookups services iid play_link :
  respects (grows_by lookup_is_tv_backdrop) (first_play_url services iid play_link).
Proof.
  revert play_link. induction services as [|[name svc] rest IH]; intros play_link; simpl.
  - footprint.
  - footprint_step; [footprint|]. destruct (PyStr.truthy a); [footprint | apply IH].
Qed.

Lemma accept_lookups env event_data :
  respects (grows_by lookup_is_tv_backdrop) (accept env event_data).
Proof.
  unfold accept, service_info.
  repeat first [apply service_infos_lookups | footprint_step | exact I].
Qed.

Lemma execute_curl_lookups env event_info :
  respects (grows_by lookup_is_tv_backdrop) (_execute_curl_command env event_info).
Proof.
  unfold _execute_curl_command, _execute_curl_command_body,
    _get_variable_one_from_path.
  footprint.
Qed.

Lemma notify_lookups env event_info :
  respects (grows_by lookup_is_tv_backdrop) (notify env event_info).
Proof.
  unfold notify, compose, message_content, resolve_image, resolve_play_link,
    update_keys, __add_element, __remove_element.
  repeat first [apply service_infos_lookups | apply first_play_url_lookups
               | footprint_step | exact I | (split; reflexivity)].
Qed.

Lemma send_lookups env event_data :
  respects (grows_by lookup_is_tv_backdrop) (send env event_data).
Proof.
  unfold send, handle, __add_element.
  repeat first [apply accept_lookups | apply execute_curl_lookups
               | apply notify_lookups | footprint_step | exact I].
Qed.

(** ** Claims about the rescan trigger *)

Lemma last_cons_nonempty {A} (x : A) (l : list A) (y : A) :
  last l = Some y -> last (x :: l) = Some y.
Proof. destruct l; [discriminate | intros H; exact H]. Qed.

Lemma variable_three_other typ :
  typ <> Some "MOV" -> typ <> Some "TV" -> typ <> Some "SHOW" ->
  variable_three_of typ = None.
Proof.
  intros H1 H2 H3. destruct typ as [t|]; [|reflexivity]. unfold variable_three_of.
  destruct (String.eqb t "MOV") eqn:E1; [apply String.eqb_eq in E1; congruence|].
  unfold PyStr.mem. cbn [existsb].
  destruct (String.eqb t "TV") eqn:E2; [apply String.eqb_eq in E2; congruence|].
  destruct (String.eqb t "SHOW") eqn:E3; [apply String.eqb_eq in E3; congruence|].
  reflexivity.
Qed.

(** ** Claims about failures *)

(** A new-item event whose rescan succeeds and whose delivery raises makes
    [send] raise. *)
Lemma delivery_failure_leaves_send :
  fst (send Sample.env_delivery_fails
         (Some (Sample.event_of "library.new" (Some "MOV")
                  (Some "/media/Movie/Documentary/a.mkv") None None))
         (Sample.world_with ∅))
  = Raise (OtherException "delivery failed").
Proof. vm_compute. reflexivity. Qed.

(** ** Claims about the image *)

(** C9, as amended.  The image is, in this order: the backdrop the
    lookup returns when the event has a TMDB id and the lookup finds one;
    otherwise the image url of the event when present; otherwise the icon
    of the server type, which may be absent. *)
Theorem image_resolution_order (env : Env) (event_info : WebhookEventInfo) (w : World) :
  fst (resolve_image env event_info w)
  = match specific_image_of env event_info with
    | Raise x => Raise x
    | Ok specific_image =>
        Ok (if PyStr.truthy specific_image then specific_image
            else if PyStr.truthy (image_url event_info) then image_url event_info
            else dict_get_opt _webhook_images (channel event_info))
    end.
Proof.
  unfold resolve_image, specific_image_of. run_monad.
  destruct (PyStr.truthy (tmdb_id event_info)); cbn [fst snd self trace].
  - destruct (obtain_specific_image env _ TV Backdrop _ _) as [specific|x];
      [|reflexivity].
    destruct (PyStr.truthy specific) eqn:Hs; cbn [fst snd].
    + rewrite Hs. reflexivity.
    + destruct (PyStr.truthy (image_url event_info)); reflexivity.
  - cbn [PyStr.truthy]. destruct (PyStr.truthy (image_url event_info)); reflexivity.
Qed.

Example icon_may_be_absent :
  dict_get_opt _webhook_images (Some "emby") = Some "https://emby.media/notificationicon.png"
  /\ dict_get_opt _webhook_images (Some "kodi") = None
  /\ dict_get_opt _webhook_images None = None.
Proof. repeat split. Qed.

(** C9 as stated fails: the event brings an image url, yet the image of
    the notification is the backdrop found through its TMDB id. *)
Lemma event_image_overridden_by_backdrop :
  PyStr.truthy (image_url (Sample.event_of "playback.start" (Some "MOV") None
                             (Some "http://emby.local/poster.jpg") (Some "603"))) = true
  /\ fst (resolve_image (Sample.env_image (Some "http://image.tmdb.org/backdrop.jpg"))
            (Sample.event_of "playback.start" (Some "MOV") None
               (Some "http://emby.local/poster.jpg") (Some "603"))
            (Sample.world_with ∅))
     = Ok (Some "http://image.tmdb.org/backdrop.jpg")
  /\ fst (resolve_image (Sample.env_image (Some "http://image.tmdb.org/backdrop.jpg"))
            (Sample.event_of "playback.start" (Some "MOV") None
               (Some "http://emby.local/poster.jpg") (Some "603"))
            (Sample.world_with ∅))
     <> Ok (image_url (Sample.event_of "playback.start" (Some "MOV") None
                         (Some "http://emby.local/poster.jpg") (Some "603")))
  /\ exists title text link,
      last (trace (snd (send (Sample.env_image (Some "http://image.tmdb.org/backdrop.jpg"))
                          (Some (Sample.event_of "playback.start" (Some "MOV") None
                                   (Some "http://emby.local/poster.jpg") (Some "603")))
                          (Sample.world_with ∅))))
      = Some (PostMessage MediaServer title text
                (Some "http://image.tmdb.org/backdrop.jpg") link).
Proof.
  split; [reflexivity|]. split; [reflexivity|]. split; [discriminate|].
  do 3 eexists. vm_compute. reflexivity.
Qed.

(** ** The key dictionary *)

Lemma filter_ne_delete (key : string) (d : gmap string Z) :
  filter (fun kv : string * Z => kv.1 <> key) d = delete key d.
Proof.
  apply map_eq. intros k. destruct (decide (k = key)) as [->|Hne].
  - rewrite lookup_delete_eq. apply map_lookup_filter_None.
    right. intros x _ Hx. apply Hx. reflexivity.
  - rewrite lookup_delete_ne by congruence.
    destruct (d !! k) as [x|] eqn:E.
    + apply map_lookup_filter_Some. split; [exact E | exact Hne].
    + apply map_lookup_filter_None. left. exact E.
Qed.

Lemma remove_element_run (key : string) (w : World) :
  __remove_element key w
  = (Ok tt, {| self := set_keys (self w) (delete key (_webhook_msg_keys (self w)));
               trace := trace w |}).
Proof. unfold __remove_element. run_monad. rewrite filter_ne_delete. reflexivity. Qed.


Lemma key_in_keys_spec (key : string) (d : gmap string Z) :
  key_in_keys key d = true <-> exists v, d !! key = Some v.
Proof. unfold key_in_keys. rewrite bool_decide_eq_true. reflexivity. Qed.

(** An accepted event that is not a duplicate stop and whose message is
    composed: the message is posted and the dictionary is updated. *)
Lemma send_notifies env event_info w w1 :
  accept env (Some event_info) w = (Ok true, w1) ->
  is_duplicate_stop event_info w1 = false ->
  exists effs,
    send env (Some event_info) w = notify env event_info (w_add w1 effs)
    /\ (event_is event_info "library.new" = false -> effs = []).
Proof.
  intros Hacc Hdup. rewrite (send_accepted _ _ _ _ Hacc).
  destruct (handle_not_duplicate env event_info w1 Hdup) as (effs & Hh & Hx).
  exists effs. split; [exact Hh|]. intros Hnew. rewrite Hnew in Hx. exact Hx.
Qed.

(** ** Stop events and the expiry *)

(** What [__get_elements] keeps is exactly the active keys. *)
Lemma get_elements_keeps_active env w key :
  let kept := _webhook_msg_keys (self (snd (__get_elements env w))) in
  (exists expiry, kept !! key = Some expiry)
  <-> is_active (time_time env) key (_webhook_msg_keys (self w)).
Proof.
  unfold __get_elements, is_active. run_monad.
  cbn [set_keys _webhook_msg_keys].
  split; intros [expiry H]; exists expiry.
  - apply map_lookup_filter_Some in H. exact H.
  - apply map_lookup_filter_Some. exact H.
Qed.

(** An accepted [playback.stop] event whose key is in the dictionary,
    with whatever expiry: nothing is posted, nothing else happens, the
    expiry becomes now + 600. *)
Lemma stop_with_present_key env event_info w w1 expiry :
  accept env (Some event_info) w = (Ok true, w1) ->
  event_is event_info "playback.stop" = true ->
  _webhook_msg_keys (self w) !! expiring_key event_info = Some expiry ->
  send env (Some event_info) w
  = (Ok tt,
     {| self := set_keys (self w)
                  (<[expiring_key event_info := time_time env + 600]>
                     (_webhook_msg_keys (self w)));
        trace := trace w1 |}).
Proof.
  intros Hacc Hstop Hkey. rewrite (send_accepted _ _ _ _ Hacc).
  pose proof (accepted_self _ _ _ _ _ Hacc) as Hself.
  rewrite handle_duplicate, Hself; [reflexivity|].
  unfold is_duplicate_stop. rewrite Hstop, Hself. cbn [andb].
  apply key_in_keys_spec. eauto.
Qed.

(** An accepted [playback.stop] event whose key is not in the dictionary
    and whose message is composed: the message is posted and the key gets
    the expiry now + 600. *)
Lemma stop_with_absent_key env event_info w w1 m w2 :
  accept env (Some event_info) w = (Ok true, w1) ->
  event_is event_info "playback.stop" = true ->
  _webhook_msg_keys (self w) !! expiring_key event_info = None ->
  compose env event_info w1 = (Ok m, w2) ->
  let w' := snd (send env (Some event_info) w) in
  last (trace w') = Some (PostMessage MediaServer (msg_title m) (msg_text m)
                            (msg_image m) (msg_link m))
  /\ _webhook_msg_keys (self w') !! expiring_key event_info
     = Some (time_time env + 600).
Proof.
  intros Hacc Hstop Hkey Hc.
  pose proof (accepted_self _ _ _ _ _ Hacc) as Hself.
  assert (Hdup : is_duplicate_stop event_info w1 = false).
  { unfold is_duplicate_stop. rewrite Hself.
    destruct (key_in_keys _ _) eqn:E; [|apply andb_false_r].
    apply key_in_keys_spec in E as [v Hv]. congruence. }
  destruct (send_notifies env event_info w w1 Hacc Hdup) as (effs & Hsend & Heff).
  rewrite (Heff (event_is_exclusive _ _ "library.new" Hstop ltac:(discriminate))),
    w_add_nil in Hsend.
  rewrite (notify_run _ _ _ _ _ Hc) in Hsend.
  cbv zeta. rewrite Hsend. cbn [snd self trace set_keys _webhook_msg_keys]. split.
  - rewrite last_snoc. reflexivity.
  - unfold keys_after. rewrite Hstop.
    rewrite (event_is_exclusive _ _ "playback.start" Hstop ltac:(discriminate)).
    apply lookup_insert_eq.
Qed.

(** C1 at a failing input.  The key was stored with expiry 600; at time
    1000 it has expired (the purge of [__get_elements] would drop it), yet
    the stop event is swallowed: nothing is posted and the expiry is pushed
    to 1600. *)
Theorem expired_key_still_suppresses_stop :
  fst (__get_elements (Sample.env_at 1000)
         (Sample.world_with {[ Sample.key := 600 ]})) = Ok []
  /\ fst (accept (Sample.env_at 1000) (Some Sample.stop_event)
            (Sample.world_with {[ Sample.key := 600 ]})) = Ok true
  /\ fst (send (Sample.env_at 1000) (Some Sample.stop_event)
            (Sample.world_with {[ Sample.key := 600 ]})) = Ok tt
  /\ existsb is_post
       (trace (snd (send (Sample.env_at 1000) (Some Sample.stop_event)
                      (Sample.world_with {[ Sample.key := 600 ]})))) = false
  /\ _webhook_msg_keys
       (self (snd (send (Sample.env_at 1000) (Some Sample.stop_event)
                     (Sample.world_with {[ Sample.key := 600 ]}))))
     !! Sample.key = Some 1600.
Proof. repeat split; vm_compute; reflexivity. Qed.

(** C2 at a failing input.  The first stop is notified and stores expiry
    600; the second arrives at 700, when the key is no longer active, and
    is swallowed all the same: one message in all, expiry pushed to 1300. *)
Theorem second_stop_after_expiry_not_notified :
  _webhook_msg_keys
    (self (snd (send (Sample.env_at 0) (Some Sample.stop_event) (Sample.world_with ∅))))
  !! Sample.key = Some 600
  /\ length (List.filter is_post
               (trace (snd (send (Sample.env_at 0) (Some Sample.stop_event)
                              (Sample.world_with ∅))))) = 1%nat
  /\ fst two_stops = Ok tt
  /\ length (List.filter is_post (trace (snd two_stops))) = 1%nat
  /\ _webhook_msg_keys (self (snd two_stops)) !! Sample.key = Some 1300.
Proof. repeat split; vm_compute; reflexivity. Qed.

(** * Further properties of the code *)

(** ** The three helpers of the key dictionary *)

Lemma set_keys_twice (p : Plugin) (a b : gmap string Z) :
  set_keys (set_keys p a) b = set_keys p b.
Proof. reflexivity. Qed.

Lemma add_element_run env key duration w :
  __add_element env key duration w
  = (Ok tt,
     {| self := set_keys (self w)
                  (<[key := time_time env + duration]> (_webhook_msg_keys (self w)));
        trace := trace w |}).
Proof. reflexivity. Qed.

Lemma get_elements_run env w :
  __get_elements env w
  = (Ok (map fst (map_to_list
                    (filter (fun kv : string * Z => time_time env < kv.2)
                       (_webhook_msg_keys (self w))))),
     {| self := set_keys (self w)
                  (filter (fun kv : string * Z => time_time env < kv.2)
                     (_webhook_msg_keys (self w)));
        trace := trace w |}).
Proof. reflexivity. Qed.

Lemma lookup_purged (now : Z) (d : gmap string Z) (k : string) :
  filter (fun kv : string * Z => now < kv.2) d !! k
  = match d !! k with
    | Some v => if now <? v then Some v else None
    | None => None
    end.
Proof.
  destruct (d !! k) as [v|] eqn:E.
  - destruct (now <? v) eqn:L.
    + apply map_lookup_filter_Some. split; [exact E | apply Z.ltb_lt; exact L].
    + apply map_lookup_filter_None. right. intros x Hx. rewrite E in Hx.
      injection Hx as <-. simpl. apply Z.ltb_ge in L. lia.
  - apply map_lookup_filter_None. left. exact E.
Qed.

Lemma purge_purge (t1 t2 : Z) (d : gmap string Z) :
  t1 <= t2 ->
  filter (fun kv : string * Z => t2 < kv.2) (filter (fun kv : string * Z => t1 < kv.2) d)
  = filter (fun kv : string * Z => t2 < kv.2) d.
Proof.
  intros Hle. apply map_eq. intros k. rewrite !lookup_purged.
  destruct (d !! k) as [v|]; [|reflexivity].
  destruct (t1 <? v) eqn:L1; [reflexivity|].
  destruct (t2 <? v) eqn:L2; [|reflexivity].
  apply Z.ltb_ge in L1. apply Z.ltb_lt in L2. lia.
Qed.

(** X1. [__get_elements] keeps an entry exactly when its expiry lies
    ahead of the clock, with the expiry it had; it returns the kept keys
    once each, leaves the trace alone, and a second purge at the same time
    changes nothing. *)
Theorem get_elements_purges_exactly_expired (env : Env) (w : World) :
  (forall k,
      _webhook_msg_keys (self (snd (__get_elements env w))) !! k
      = match _webhook_msg_keys (self w) !! k with
        | Some v => if time_time env <? v then Some v else None
        | None => None
        end)
  /\ (exists l, fst (__get_elements env w) = Ok l
                /\ NoDup l
                /\ forall k, In k l <->
                             is_active (time_time env) k (_webhook_msg_keys (self w)))
  /\ trace (snd (__get_elements env w)) = trace w
  /\ __get_elements env (snd (__get_elements env w)) = __get_elements env w.
Proof.
  rewrite get_elements_run. cbn [fst snd self trace set_keys _webhook_msg_keys].
  split; [intros k; apply lookup_purged|]. split; [|split; [reflexivity|]].
  - eexists. split; [reflexivity|]. split.
    + apply NoDup_fst_map_to_list.
    + intros k. rewrite <- list_elem_of_In, list_elem_of_fmap. unfold is_active. split.
      * intros [[k' v] [-> Hin]]. apply elem_of_map_to_list in Hin.
        apply map_lookup_filter_Some in Hin. exists v. exact Hin.
      * intros [v Hv]. exists (k, v). split; [reflexivity|].
        apply elem_of_map_to_list, map_lookup_filter_Some. exact Hv.
  - rewrite get_elements_run. cbn [fst snd self trace set_keys _webhook_msg_keys].
    rewrite purge_purge by lia. reflexivity.
Qed.

(** X2. A purge at a later time makes an earlier purge redundant: purging
    at [t1] and then at [t2 >= t1] leaves the same world and returns the
    same keys as purging once at [t2]. *)
Theorem later_purge_subsumes_earlier (env1 env2 : Env) (w : World)
    (Hle : time_time env1 <= time_time env2) :
  __get_elements env2 (snd (__get_elements env1 w)) = __get_elements env2 w.
Proof.
  rewrite !get_elements_run. cbn [fst snd self trace set_keys _webhook_msg_keys].
  rewrite purge_purge by exact Hle. reflexivity.
Qed.

Lemma later_purge_subsumes_earlier_witness :
  __get_elements (Sample.env_at 700)
    (snd (__get_elements (Sample.env_at 30)
            (Sample.world_with {[ Sample.key := 600 ]})))
  = __get_elements (Sample.env_at 700) (Sample.world_with {[ Sample.key := 600 ]}).
Proof.
  apply later_purge_subsumes_earlier. simpl. lia.
Defined.

(** X3. A key stored by [__add_element] at time [t] with a duration
    survives a purge at time [t'] exactly when [t' < t + duration], and
    then keeps that expiry; the other keys fare as in a purge of the
    dictionary before the insertion. *)
Theorem added_key_expires_after_duration (env env' : Env) (key : string)
    (duration : Z) (w : World) :
  _webhook_msg_keys
    (self (snd (__get_elements env' (snd (__add_element env key duration w)))))
  !! key
  = (if time_time env' <? time_time env + duration
     then Some (time_time env + duration) else None)
  /\ forall k, k <> key ->
      _webhook_msg_keys
        (self (snd (__get_elements env' (snd (__add_element env key duration w)))))
      !! k
      = _webhook_msg_keys (self (snd (__get_elements env' w))) !! k.
Proof.
  rewrite add_element_run, !get_elements_run.
  cbn [fst snd self trace set_keys _webhook_msg_keys]. split.
  - rewrite lookup_purged, lookup_insert_eq. reflexivity.
  - intros k Hne. rewrite !lookup_purged, lookup_insert_ne by congruence. reflexivity.
Qed.

(** X4. The helpers compose as on a map: removing a key just added
    equals removing it, adding a key just removed equals adding it, and of
    two additions of one key the later one stands. *)
Theorem add_remove_compose (env env' : Env) (key : string) (duration duration' : Z)
    (w : World) :
  snd (__remove_element key (snd (__add_element env key duration w)))
  = snd (__remove_element key w)
  /\ snd (__add_element env key duration (snd (__remove_element key w)))
     = snd (__add_element env key duration w)
  /\ snd (__add_element env' key duration' (snd (__add_element env key duration w)))
     = snd (__add_element env' key duration' w).
Proof.
  rewrite !add_element_run. rewrite !remove_element_run.
  cbn [fst snd self trace set_keys _webhook_msg_keys]. repeat split.
  - rewrite delete_insert_eq. reflexivity.
  - rewrite insert_delete_eq. reflexivity.
  - rewrite insert_insert_eq. reflexivity.
Qed.

(** ** Which part of the handler makes which effects *)

Section GrowsBy.
Variable P : Effect -> Prop.
Hypothesis P_log : forall lvl msg, P (Log lvl msg).
Hypothesis P_directory : forall type_filter name_filters, P (GetServices type_filter name_filters).
Hypothesis P_run : forall argv timeout, P (SubprocessRun argv timeout).
Hypothesis P_location : forall addr, P (GetLocation addr).
Hypothesis P_lookup : forall a b c d e, P (ObtainSpecificImage a b c d e).
Hypothesis P_play : forall iid, P (GetPlayUrl iid).

Lemma service_infos_grows env type_filter :
  respects (grows_by P) (service_infos env type_filter).
Proof.
  unfold service_infos.
  repeat first [apply keep_active_grows; exact P_log | footprint_step
               | apply P_log | apply P_directory].
Qed.

Lemma accept_grows env event_data :
  respects (grows_by P) (accept env event_data).
Proof.
  unfold accept, service_info.
  repeat first [apply service_infos_grows | footprint_step | apply P_log].
Qed.

Lemma execute_curl_grows env event_info :
  respects (grows_by P) (_execute_curl_command env event_info).
Proof.
  unfold _execute_curl_command, _execute_curl_command_body,
    _get_variable_one_from_path.
  repeat first [footprint_step | apply P_log | apply P_run].
Qed.

Lemma first_play_url_grows services iid play_link :
  respects (grows_by P) (first_play_url services iid play_link).
Proof.
  revert play_link. induction services as [|[name svc] rest IH]; intros play_link; simpl.
  - footprint_step.
  - footprint_step; [footprint_step; apply P_play|].
    destruct (PyStr.truthy a); [footprint_step | apply IH].
Qed.

Lemma compose_grows env event_info :
  respects (grows_by P) (compose env event_info).
Proof.
  unfold compose, message_content, resolve_image, resolve_play_link.
  repeat first [apply service_infos_grows | apply first_play_url_grows
               | footprint_step | apply P_log | apply P_directory
               | apply P_location | apply P_lookup | apply P_play].
Qed.
End GrowsBy.

Lemma grows_by_run {A} (P : Effect -> Prop) (m : M A) w r w' :
  respects (grows_by P) m -> m w = (r, w') ->
  exists effs, trace w' = (trace w ++ effs)%list /\ Forall P effs.
Proof. intros Hm Hr. specialize (Hm w). rewrite Hr in Hm. exact Hm. Qed.

Lemma world_eta (w : World) (p : Plugin) (effs : list Effect) :
  self w = p -> trace w = effs -> w = {| self := p; trace := effs |}.
Proof. destruct w. simpl. intros -> ->. reflexivity. Qed.

(** The filter only logs and asks for the servers, and leaves the plugin
    object alone. *)
Lemma accept_run env event_data w r w1 :
  accept env event_data w = (r, w1) ->
  exists effs, w1 = w_add w effs /\ Forall (fun e => accept_effect e = true) effs.
Proof.
  intros H.
  destruct (grows_by_run (fun e => accept_effect e = true) _ w r w1
              (accept_grows _ (fun _ _ => eq_refl) (fun _ _ => eq_refl) env event_data) H)
    as (effs & Ht & Hf).
  exists effs. split; [|exact Hf].
  apply world_eta; [exact (accepted_self _ _ _ _ _ H) | exact Ht].
Qed.

(** So does the composition, with the lookups it needs. *)
Lemma compose_run env event_info w r w2 :
  compose env event_info w = (r, w2) ->
  exists effs, w2 = w_add w effs /\ Forall (fun e => compose_effect e = true) effs.
Proof.
  intros H.
  destruct (grows_by_run (fun e => compose_effect e = true) _ w r w2
              (compose_grows _ (fun _ _ => eq_refl) (fun _ _ => eq_refl)
                 (fun _ => eq_refl) (fun _ _ _ _ _ => eq_refl) (fun _ => eq_refl)
                 env event_info) H)
    as (effs & Ht & Hf).
  exists effs. split; [|exact Hf].
  apply world_eta; [exact (composed_self _ _ _ _ _ H) | exact Ht].
Qed.

Lemma w_add_inj (w : World) (a b : list Effect) : w_add w a = w_add w b -> a = b.
Proof. unfold w_add. intros [= H]. apply app_inv_head in H. exact H. Qed.

Lemma no_rescan_in_logs (l : list Effect) :
  forallb is_log l = true -> List.filter is_rescan l = [].
Proof.
  induction l as [|x l IH]; [reflexivity|]. cbn [forallb List.filter].
  intros Hl. apply andb_true_iff in Hl as [Hx Hl].
  destruct x; try discriminate Hx. cbn [is_rescan]. apply IH. exact Hl.
Qed.

(** The trigger logs and runs at most one command. *)
Lemma execute_curl_at_most_once env event_info w :
  exists effs,
    _execute_curl_command env event_info w = (Ok tt, w_add w effs)
    /\ Forall (fun e => rescan_effect e = true) effs
    /\ (length (List.filter is_rescan effs) <= 1)%nat.
Proof.
  destruct (execute_curl_returns env event_info w) as [effs He].
  exists effs. split; [exact He|].
  destruct (grows_by_run (fun e => rescan_effect e = true) _ w _ _
              (execute_curl_grows _ (fun _ _ => eq_refl) (fun _ _ => eq_refl)
                 env event_info) He)
    as (effs' & Ht & Hf).
  cbn [w_add trace] in Ht. apply app_inv_head in Ht. subst effs'.
  split; [exact Hf|].
  destruct (variable_three_of (item_type event_info)) as [seg|] eqn:H3.
  - destruct (PyStr.or_none (item_path event_info)) as [path|] eqn:Hp.
    + destruct (scan_mapping _path_mapping path) as [[pat v]|] eqn:Hs.
      * assert (Hp' : item_path event_info = Some path).
        { unfold PyStr.or_none in Hp.
          destruct (PyStr.truthy (item_path event_info)); congruence. }
        destruct (execute_curl_runs env event_info w path pat v seg Hp' Hs H3)
          as (before & after & Hrun & Hb & Ha & _).
        assert (Heq : effs = (before ++ SubprocessRun
                                (curl_command v (variable_two_of path) seg) 30
                              :: after)%list).
        { apply (w_add_inj w). congruence. }
        subst effs. rewrite List.filter_app. cbn [List.filter is_rescan].
        rewrite (no_rescan_in_logs _ Hb), (no_rescan_in_logs _ Ha). simpl. lia.
      * assert (Hne : PyStr.nonempty path = true).
        { unfold PyStr.or_none, PyStr.truthy in Hp.
          destruct (item_path event_info) as [q|]; [|discriminate].
          destruct (PyStr.nonempty q) eqn:Hq; [|discriminate]. congruence. }
        assert (Hrun : exists l, _execute_curl_command env event_info w
                                 = (Ok tt, w_add w l) /\ forallb is_log l = true).
        { unfold _execute_curl_command, _execute_curl_command_body,
            _get_variable_one_from_path. rewrite Hp, Hne, Hs. run_monad.
          eexists. split; [close_world | reflexivity]. }
        destruct Hrun as (l & Hrun & Hl).
        assert (effs = l) as -> by (apply (w_add_inj w); congruence).
        rewrite (no_rescan_in_logs _ Hl). simpl. lia.
    + assert (Hrun : exists l, _execute_curl_command env event_info w
                               = (Ok tt, w_add w l) /\ forallb is_log l = true).
      { unfold _execute_curl_command, _execute_curl_command_body.
        rewrite Hp. run_monad. eexists. split; [close_world | reflexivity]. }
      destruct Hrun as (l & Hrun & Hl).
      assert (effs = l) as -> by (apply (w_add_inj w); congruence).
      rewrite (no_rescan_in_logs _ Hl). simpl. lia.
  - destruct (execute_curl_skipped env event_info w H3) as (effs2 & msg & He2 & Hl & _).
    assert (effs = effs2) as -> by (apply (w_add_inj w); congruence).
    rewrite (no_rescan_in_logs _ Hl). simpl. lia.
Qed.

(** ** Every run of [send] *)

Lemma accept_none env w : accept env None w = (Ok false, w).
Proof.
  unfold accept. run_monad. destruct (_enabled (self w)); reflexivity.
Qed.

Lemma is_duplicate_stop_self event_info w w' :
  self w' = self w -> is_duplicate_stop event_info w' = is_duplicate_stop event_info w.
Proof. unfold is_duplicate_stop. intros ->. reflexivity. Qed.

Lemma handle_not_duplicate_effs env event_info w :
  is_duplicate_stop event_info w = false ->
  exists effs,
    handle env event_info w = notify env event_info (w_add w effs)
    /\ Forall (fun e => rescan_effect e = true) effs
    /\ (length (List.filter is_rescan effs) <= 1)%nat
    /\ (event_is event_info "library.new" = false -> effs = []).
Proof.
  intros Hdup. destruct (handle_not_duplicate env event_info w Hdup) as (effs & Hh & Hx).
  exists effs. split; [exact Hh|].
  destruct (event_is event_info "library.new").
  - destruct Hx as (effs' & -> & Hc).
    destruct (execute_curl_at_most_once env event_info
                (w_add w [Log INFO "检测到新入库事件，准备执行curl命令"]))
      as (l & Hl & Hf & Hn).
    rewrite Hl, w_add_add in Hc.
    assert (Heq : ([Log INFO "检测到新入库事件，准备执行curl命令"] ++ l)%list
                  = Log INFO "检测到新入库事件，准备执行curl命令" :: effs')
      by (apply (w_add_inj w); congruence).
    cbn [app] in Heq. injection Heq as <-.
    split; [constructor; [reflexivity | exact Hf]|]. split; [exact Hn | discriminate].
  - subst effs. split; [constructor|]. split; [simpl; lia | reflexivity].
Qed.

Lemma send_outcome_rejected env event_data w r e_acc :
  accept env event_data w = (r, w_add w e_acc) ->
  r <> Ok true ->
  Forall (fun e => accept_effect e = true) e_acc ->
  send_outcome env event_data w (send env event_data w).
Proof.
  intros Hacc Hr Hfacc.
  assert (Hsend : send env event_data w = (returned r, w_add w e_acc)).
  { unfold send, bind. rewrite Hacc.
    destruct r as [[|]|x]; [congruence | reflexivity | reflexivity]. }
  rewrite Hsend. apply Rejected; assumption.
Qed.

Lemma send_outcome_accepted env event_info w e_acc :
  accept env (Some event_info) w = (Ok true, w_add w e_acc) ->
  Forall (fun e => accept_effect e = true) e_acc ->
  send_outcome env (Some event_info) w (send env (Some event_info) w).
Proof.
  intros Hacc Hfacc. rewrite (send_accepted _ _ _ _ Hacc).
  destruct (is_duplicate_stop event_info w) eqn:Hdup.
  - rewrite handle_duplicate
      by (rewrite (is_duplicate_stop_self _ w (w_add w e_acc) eq_refl); exact Hdup).
    apply (Duplicate env (Some event_info) w event_info e_acc); auto.
  - destruct (handle_not_duplicate_effs env event_info (w_add w e_acc))
      as (e_res & Hh & Hfres & Hn & Hnew).
    { rewrite (is_duplicate_stop_self _ w (w_add w e_acc) eq_refl). exact Hdup. }
    rewrite Hh, w_add_add.
    destruct (compose env event_info (w_add w (e_acc ++ e_res))) as [[m|x] w2] eqn:Hc;
      destruct (compose_run _ _ _ _ _ Hc) as (e_cmp & -> & Hfcmp);
      rewrite w_add_add, <- app_assoc in Hc.
    + rewrite (notify_run _ _ _ _ _ Hc). cbn [w_add self trace].
      replace ((trace w ++ e_acc ++ e_res ++ e_cmp) ++ [PostMessage MediaServer
                 (msg_title m) (msg_text m) (msg_image m) (msg_link m)])%list
        with (trace w ++ e_acc ++ e_res ++ e_cmp ++ [post_of m])%list
        by (unfold post_of; rewrite <- !app_assoc; reflexivity).
      apply (Posted env (Some event_info) w event_info e_acc e_res e_cmp m); auto.
    + rewrite (notify_raise _ _ _ _ _ Hc).
      apply (ComposeRaised env (Some event_info) w event_info e_acc e_res e_cmp x); auto.
Qed.

(** The run of [send] on any input is one of the four outcomes. *)
Lemma send_outcome_holds (env : Env) (event_data : option WebhookEventInfo)
    (w : World) :
  send_outcome env event_data w (send env event_data w).
Proof.
  destruct (accept env event_data w) as [r w1] eqn:Hacc.
  destruct (accept_run _ _ _ _ _ Hacc) as (e_acc & -> & Hfacc).
  assert (Hr : r = Ok true \/ r <> Ok true).
  { destruct r as [[|]|x]; [left; reflexivity | right; discriminate | right; discriminate]. }
  destruct Hr as [->|Hr].
  - destruct event_data as [event_info|]; [|rewrite accept_none in Hacc; discriminate].
    exact (send_outcome_accepted _ _ _ _ Hacc Hfacc).
  - exact (send_outcome_rejected _ _ _ _ _ Hacc Hr Hfacc).
Qed.

(** X5. Every run of [send] goes one of four ways: the filter rejects
    the event or raises; the event is a [playback.stop] whose key is in the
    dictionary; the composition of the message raises; or the message is
    handed to the channel.  In each the world left behind is known: the
    filter's effects first, then those of the rescan trigger, then those of
    the composition, then the one delivery. *)
Theorem send_goes_one_of_four_ways (env : Env) (event_data : option WebhookEventInfo)
    (w : World) :
  send_outcome env event_data w (send env event_data w).
Proof.
  destruct (accept env event_data w) as [[[|]|x] w1] eqn:Hacc;
    destruct (accept_run _ _ _ _ _ Hacc) as (e_acc & -> & Hfacc).
  - destruct event_data as [event_info|].
    + exact (send_outcome_accepted _ _ _ _ Hacc Hfacc).
    + rewrite accept_none in Hacc. discriminate.
  - apply (send_outcome_rejected _ _ _ _ _ Hacc); [discriminate | exact Hfacc].
  - apply (send_outcome_rejected _ _ _ _ _ Hacc); [discriminate | exact Hfacc].
Qed.

Lemma filter_excluded (f g : Effect -> bool) (l : list Effect) :
  (forall e, g e = true -> f e = false) ->
  Forall (fun e => g e = true) l -> List.filter f l = [].
Proof.
  intros Hfg Hl. induction Hl as [|x l Hx Hl IH]; [reflexivity|].
  cbn [List.filter]. rewrite (Hfg x Hx). exact IH.
Qed.

Lemma accept_effect_no_post e : accept_effect e = true -> is_post e = false.
Proof. destruct e; simpl; intros H; first [reflexivity | discriminate H]. Qed.

Lemma rescan_effect_no_post e : rescan_effect e = true -> is_post e = false.
Proof. destruct e; simpl; intros H; first [reflexivity | discriminate H]. Qed.

Lemma compose_effect_no_post e : compose_effect e = true -> is_post e = false.
Proof. destruct e; simpl; intros H; first [reflexivity | discriminate H]. Qed.

Lemma accept_effect_no_rescan e : accept_effect e = true -> is_rescan e = false.
Proof. destruct e; simpl; intros H; first [reflexivity | discriminate H]. Qed.

Lemma compose_effect_no_rescan e : compose_effect e = true -> is_rescan e = false.
Proof. destruct e; simpl; intros H; first [reflexivity | discriminate H]. Qed.

Lemma keys_after_other env event_info d k :
  k <> expiring_key event_info ->
  keys_after env event_info d !! k = d !! k.
Proof.
  intros Hne. unfold keys_after.
  destruct (event_is event_info "playback.start").
  - rewrite filter_ne_delete, lookup_delete_ne by congruence.
    destruct (event_is event_info "playback.stop"); [|reflexivity].
    apply lookup_insert_ne. congruence.
  - destruct (event_is event_info "playback.stop"); [|reflexivity].
    apply lookup_insert_ne. congruence.
Qed.

Lemma keys_after_idle env event_info d :
  event_is event_info "playback.stop" = false ->
  event_is event_info "playback.start" = false ->
  keys_after env event_info d = d.
Proof. unfold keys_after. intros -> ->. reflexivity. Qed.

(** X6. A run of [send] hands at most one message to the channel; when
    it does, the delivery is the last thing it does, the message is of the
    media-server category, and what [send] returns or raises is what the
    channel returned or raised. *)
Theorem send_posts_at_most_once (env : Env) (event_data : option WebhookEventInfo)
    (w : World) :
  exists effs,
    trace (snd (send env event_data w)) = (trace w ++ effs)%list
    /\ (List.filter is_post effs = []
        \/ exists m,
            List.filter is_post effs = [post_of m]
            /\ last effs = Some (post_of m)
            /\ fst (send env event_data w)
               = post_message env MediaServer (msg_title m) (msg_text m)
                   (msg_image m) (msg_link m)).
Proof.
  destruct (send_outcome_holds env event_data w)
    as [r e_acc Hacc Hr Hfa
       | e e_acc He Hacc Hfa Hdup
       | e e_acc e_res e_cmp x He Hacc Hfa Hdup Hfr Hn Hnew Hc Hfc
       | e e_acc e_res e_cmp m He Hacc Hfa Hdup Hfr Hn Hnew Hc Hfc];
    cbn [fst snd w_add self trace].
  - exists e_acc. split; [reflexivity|]. left.
    exact (filter_excluded _ _ _ accept_effect_no_post Hfa).
  - exists e_acc. split; [reflexivity|]. left.
    exact (filter_excluded _ _ _ accept_effect_no_post Hfa).
  - exists (e_acc ++ e_res ++ e_cmp)%list. split; [reflexivity|]. left.
    rewrite !List.filter_app,
      (filter_excluded _ _ _ accept_effect_no_post Hfa),
      (filter_excluded _ _ _ rescan_effect_no_post Hfr),
      (filter_excluded _ _ _ compose_effect_no_post Hfc). reflexivity.
  - exists (e_acc ++ e_res ++ e_cmp ++ [post_of m])%list. split; [reflexivity|].
    right. exists m. split; [|split; [|reflexivity]].
    + rewrite !List.filter_app,
        (filter_excluded _ _ _ accept_effect_no_post Hfa),
        (filter_excluded _ _ _ rescan_effect_no_post Hfr),
        (filter_excluded _ _ _ compose_effect_no_post Hfc). reflexivity.
    + rewrite !app_assoc. apply last_snoc.
Qed.

(** X7. A run of [send] runs the rescan command at most once, and not at
    all unless the event is of kind [library.new]. *)
Theorem send_rescans_only_new_items (env : Env)
    (event_data : option WebhookEventInfo) (w : World) :
  exists effs,
    trace (snd (send env event_data w)) = (trace w ++ effs)%list
    /\ (length (List.filter is_rescan effs) <= 1)%nat
    /\ (List.filter is_rescan effs = []
        \/ exists event_info,
            event_data = Some event_info
            /\ event_is event_info "library.new" = true).
Proof.
  destruct (send_outcome_holds env event_data w)
    as [r e_acc Hacc Hr Hfa
       | e e_acc He Hacc Hfa Hdup
       | e e_acc e_res e_cmp x He Hacc Hfa Hdup Hfr Hn Hnew Hc Hfc
       | e e_acc e_res e_cmp m He Hacc Hfa Hdup Hfr Hn Hnew Hc Hfc];
    cbn [fst snd w_add self trace].
  - exists e_acc. split; [reflexivity|].
    rewrite (filter_excluded _ _ _ accept_effect_no_rescan Hfa).
    split; [simpl; lia | left; reflexivity].
  - exists e_acc. split; [reflexivity|].
    rewrite (filter_excluded _ _ _ accept_effect_no_rescan Hfa).
    split; [simpl; lia | left; reflexivity].
  - exists (e_acc ++ e_res ++ e_cmp)%list. split; [reflexivity|].
    rewrite !List.filter_app,
      (filter_excluded _ _ _ accept_effect_no_rescan Hfa),
      (filter_excluded _ _ _ compose_effect_no_rescan Hfc), app_nil_r.
    cbn [app]. split; [exact Hn|].
    destruct (event_is e "library.new") eqn:E; [right; eauto|].
    left. rewrite (Hnew eq_refl). reflexivity.
  - exists (e_acc ++ e_res ++ e_cmp ++ [post_of m])%list. split; [reflexivity|].
    rewrite !List.filter_app,
      (filter_excluded _ _ _ accept_effect_no_rescan Hfa),
      (filter_excluded _ _ _ compose_effect_no_rescan Hfc).
    cbn [app List.filter post_of is_rescan]. rewrite app_nil_r. split; [exact Hn|].
    destruct (event_is e "library.new") eqn:E; [right; eauto|].
    left. rewrite (Hnew eq_refl). reflexivity.
Qed.

(** X8. Whatever the event and however the run ends, [send] leaves the
    four settings of the plugin as they were and touches no dictionary
    entry other than the one under the key of the event; unless the event
    is of kind [playback.stop] or [playback.start] it leaves the whole
    plugin object as it was. *)
Theorem send_touches_only_the_event_key (env : Env)
    (event_data : option WebhookEventInfo) (w : World) :
  _enabled (self (snd (send env event_data w))) = _enabled (self w)
  /\ _add_play_link (self (snd (send env event_data w))) = _add_play_link (self w)
  /\ _mediaservers (self (snd (send env event_data w))) = _mediaservers (self w)
  /\ _types (self (snd (send env event_data w))) = _types (self w)
  /\ (forall k,
         (forall event_info, event_data = Some event_info ->
                             k <> expiring_key event_info) ->
         _webhook_msg_keys (self (snd (send env event_data w))) !! k
         = _webhook_msg_keys (self w) !! k)
  /\ ((forall event_info, event_data = Some event_info ->
                          event_is event_info "playback.stop" = false
                          /\ event_is event_info "playback.start" = false) ->
      self (snd (send env event_data w)) = self w).
Proof.
  destruct (send_outcome_holds env event_data w)
    as [r e_acc Hacc Hr Hfa
       | e e_acc He Hacc Hfa Hdup
       | e e_acc e_res e_cmp x He Hacc Hfa Hdup Hfr Hn Hnew Hc Hfc
       | e e_acc e_res e_cmp m He Hacc Hfa Hdup Hfr Hn Hnew Hc Hfc];
    cbn [fst snd w_add self trace set_keys _enabled _add_play_link _mediaservers
         _types _webhook_msg_keys];
    repeat (split; [reflexivity|]); try (split; reflexivity).
  - split.
    + intros k Hk. apply lookup_insert_ne. specialize (Hk e He). congruence.
    + intros Hk. destruct (Hk e He) as [Hstop _].
      unfold is_duplicate_stop in Hdup. rewrite Hstop in Hdup. discriminate.
  - split.
    + intros k Hk. apply keys_after_other. exact (Hk e He).
    + intros Hk. destruct (Hk e He) as [Hstop Hstart].
      rewrite (keys_after_idle _ _ _ Hstop Hstart). apply set_keys_same.
Qed.

(** ** Early returns of the filter *)

(** X9. With the plugin disabled, or with an event that carries no data,
    [send] returns at once: nothing is logged, nothing is asked, the world
    is as before. *)
Theorem send_disabled_or_no_data (env : Env) (event_data : option WebhookEventInfo)
    (w : World)
    (Hoff : _enabled (self w) = false \/ event_data = None) :
  send env event_data w = (Ok tt, w).
Proof.
  unfold send, accept. run_monad. destruct Hoff as [-> | ->]; [reflexivity|].
  destruct (_enabled (self w)); reflexivity.
Qed.

Lemma send_disabled_or_no_data_witness :
  send (Sample.env_at 0) None (Sample.world_with ∅) = (Ok tt, Sample.world_with ∅).
Proof. apply send_disabled_or_no_data. right. reflexivity. Defined.

Lemma dict_get_in {V} (d : list (string * V)) (k : string) (v : V) :
  dict_get d k = Some v -> In (k, v) d.
Proof.
  induction d as [|[k' v'] d IH]; simpl; [discriminate|].
  destruct (String.eqb k' k) eqn:E.
  - apply String.eqb_eq in E. intros [= ->]. left. congruence.
  - intros H. right. apply IH. exact H.
Qed.

Lemma labels_nonempty (kind label : string) :
  dict_get _webhook_actions kind = Some label -> PyStr.nonempty label = true.
Proof.
  intros H. apply dict_get_in in H. simpl in H.
  repeat (destruct H as [H|H]; [injection H as _ <-; reflexivity|]). contradiction.
Qed.

(** X10. A recognised kind that is in none of the selected groups is
    dropped with one entry in the log and nothing else: no server is asked
    for, the plugin object is untouched. *)
Theorem send_kind_not_selected (env : Env) (event_info : WebhookEventInfo)
    (w : World) (kind label : string)
    (Hon : _enabled (self w) = true)
    (Hkind : event event_info = Some kind)
    (Hlabel : dict_get _webhook_actions kind = Some label)
    (Hnot : msgflag (_types (self w)) (Some kind) = false) :
  send env (Some event_info) w
  = (Ok tt, w_add w [Log INFO ("未开启 " +:+ kind +:+ " 类型的消息通知")]).
Proof.
  unfold send, accept. run_monad. rewrite Hon, Hkind. cbn [negb dict_get_opt].
  rewrite Hlabel. cbn [PyStr.truthy]. rewrite (labels_nonempty _ _ Hlabel), Hnot.
  reflexivity.
Qed.

Lemma send_kind_not_selected_witness :
  send (Sample.env_at 0) (Some Sample.stop_event) Sample2.world_new_items_only
  = (Ok tt, w_add Sample2.world_new_items_only
              [Log INFO ("未开启 playback.stop 类型的消息通知")]).
Proof.
  exact (send_kind_not_selected (Sample.env_at 0) Sample.stop_event
           Sample2.world_new_items_only
           "playback.stop" "停止播放" eq_refl eq_refl eq_refl eq_refl).
Defined.

(** X11. With no media server configured, a recognised and selected
    event is dropped after two entries in the log; the directory of servers
    is not asked at all. *)
Theorem send_without_configured_servers (env : Env) (event_info : WebhookEventInfo)
    (w : World) (kind label : string)
    (Hon : _enabled (self w) = true)
    (Hkind : event event_info = Some kind)
    (Hlabel : dict_get _webhook_actions kind = Some label)
    (Hsel : msgflag (_types (self w)) (Some kind) = true)
    (Hnone : _mediaservers (self w) = []) :
  send env (Some event_info) w
  = (Ok tt, w_add w [Log WARNING "尚未配置媒体服务器，请检查配置";
                     Log INFO "未开启任一媒体服务器的消息通知"]).
Proof.
  unfold send, accept, service_infos. run_monad.
  rewrite Hon, Hkind. cbn [negb dict_get_opt].
  rewrite Hlabel. cbn [PyStr.truthy]. rewrite (labels_nonempty _ _ Hlabel), Hsel.
  cbn [negb]. rewrite Hnone. cbn [is_nil fst snd self trace dict_truthy negb].
  unfold w_add. rewrite <- app_assoc. reflexivity.
Qed.

Lemma send_without_configured_servers_witness :
  send (Sample.env_at 0) (Some Sample.stop_event) Sample2.world_no_servers
  = (Ok tt, w_add Sample2.world_no_servers
              [Log WARNING "尚未配置媒体服务器，请检查配置";
               Log INFO "未开启任一媒体服务器的消息通知"]).
Proof.
  exact (send_without_configured_servers (Sample.env_at 0) Sample.stop_event
           Sample2.world_no_servers
           "playback.stop" "停止播放" eq_refl eq_refl eq_refl eq_refl eq_refl).
Defined.

(** ** The connected servers *)

Lemma keep_active_run services active w :
  exists effs,
    keep_active services active w = (Ok (active_of services active), w_add w effs)
    /\ forallb is_log effs = true.
Proof.
  revert active w. induction services as [|[name info] rest IH]; intros active w.
  - exists []. rewrite w_add_nil. split; reflexivity.
  - cbn [keep_active active_of]. destruct (is_inactive info).
    + run_monad.
      destruct (IH active {| self := self w;
                             trace := (trace w ++ [Log WARNING
                               ("媒体服务器 " +:+ name +:+ " 未连接，请检查配置")])%list |})
        as (effs & He & Hl).
      rewrite He.
      exists (Log WARNING ("媒体服务器 " +:+ name +:+ " 未连接，请检查配置") :: effs).
      split; [|exact Hl].
      unfold w_add. cbn [self trace]. rewrite <- app_assoc. reflexivity.
    + apply IH.
Qed.

Lemma service_infos_run env type_filter w :
  exists effs,
    service_infos env type_filter w
    = (active_services_of env (_mediaservers (self w)) type_filter, w_add w effs).
Proof.
  unfold service_infos, active_services_of. run_monad.
  destruct (is_nil (_mediaservers (self w))); [eexists; close_world|].
  cbn [fst snd self trace].
  destruct (get_services env type_filter (Some (_mediaservers (self w))))
    as [[[|s services]|]|x]; try (eexists; close_world).
  match goal with
  | |- context [keep_active ?l ?a ?w0] =>
      destruct (keep_active_run l a w0) as (effs & He & _); rewrite He
  end.
  destruct (is_nil (active_of (s :: services) []));
    cbn [fst snd self trace w_add]; eexists; close_world.
Qed.

Lemma dict_set_keys {V} (d : list (string * V)) (k : string) (v : V) (x : string) :
  In x (map fst (dict_set d k v)) <-> In x (map fst d) \/ x = k.
Proof.
  induction d as [|[k' v'] d IH]; simpl.
  - intuition congruence.
  - destruct (String.eqb k' k) eqn:E; simpl.
    + apply String.eqb_eq in E. subst k'. intuition congruence.
    + rewrite IH. tauto.
Qed.

Lemma dict_set_nodup {V} (d : list (string * V)) (k : string) (v : V) :
  List.NoDup (map fst d) -> List.NoDup (map fst (dict_set d k v)).
Proof.
  induction d as [|[k' v'] d IH]; simpl; intros Hnd.
  - constructor; [intros [] | constructor].
  - inversion Hnd as [|? ? Hnin Hnd']; subst.
    destruct (String.eqb k' k) eqn:E; simpl.
    + constructor; assumption.
    + constructor; [|apply IH; assumption].
      rewrite dict_set_keys. apply String.eqb_neq in E. intros [H|H]; [tauto | congruence].
Qed.

Lemma dict_get_set {V} (d : list (string * V)) (k : string) (v : V) (k' : string) :
  dict_get (dict_set d k v) k'
  = if String.eqb k k' then Some v else dict_get d k'.
Proof.
  induction d as [|[k0 v0] d IH]; simpl.
  - reflexivity.
  - destruct (String.eqb k0 k) eqn:E; simpl.
    + apply String.eqb_eq in E. subst k0.
      destruct (String.eqb k k'); reflexivity.
    + rewrite IH. destruct (String.eqb k0 k') eqn:E'; [|reflexivity].
      apply String.eqb_eq in E'. subst k0. rewrite String.eqb_sym, E. reflexivity.
Qed.

Lemma active_of_sound services active name svc :
  dict_get (active_of services active) name = Some svc ->
  dict_get active name = Some svc
  \/ (is_inactive svc = false /\ In (name, svc) services).
Proof.
  revert active. induction services as [|[n s] rest IH]; intros active; simpl.
  - tauto.
  - destruct (is_inactive s) eqn:Hs.
    + intros H. destruct (IH _ H) as [H'|[H1 H2]]; [left; exact H' | right; tauto].
    + intros H. destruct (IH _ H) as [H'|[H1 H2]]; [|right; tauto].
      rewrite dict_get_set in H'. destruct (String.eqb n name) eqn:E.
      * apply String.eqb_eq in E. injection H' as <-. subst n. right. tauto.
      * left. exact H'.
Qed.

Lemma active_of_keeps services active name :
  (exists svc, dict_get active name = Some svc /\ is_inactive svc = false) ->
  exists svc, dict_get (active_of services active) name = Some svc
              /\ is_inactive svc = false.
Proof.
  revert active. induction services as [|[n s] rest IH]; intros active; simpl.
  - tauto.
  - intros (svc & Hg & Hi). destruct (is_inactive s) eqn:Hs.
    + apply IH. eauto.
    + apply IH. rewrite dict_get_set. destruct (String.eqb n name); eauto.
Qed.

Lemma active_of_complete services active name svc :
  In (name, svc) services -> is_inactive svc = false ->
  exists svc', dict_get (active_of services active) name = Some svc'
               /\ is_inactive svc' = false.
Proof.
  revert active. induction services as [|[n s] rest IH]; intros active; simpl.
  - contradiction.
  - intros [[= -> ->]|Hin] Hi.
    + rewrite Hi. apply active_of_keeps. exists svc.
      rewrite dict_get_set, String.eqb_refl. tauto.
    + destruct (is_inactive s); apply IH; assumption.
Qed.

Lemma active_of_nodup services active :
  List.NoDup (map fst active) -> List.NoDup (map fst (active_of services active)).
Proof.
  revert active. induction services as [|[n s] rest IH]; intros active; simpl.
  - tauto.
  - intros H. destruct (is_inactive s); apply IH; [assumption|].
    apply dict_set_nodup. assumption.
Qed.

(** X12. When [service_infos] returns a dictionary, the dictionary is
    not empty, has each name once, holds only servers the directory gave
    for the configured names and that are connected, and misses no
    connected server of that answer; it returns nothing, with a warning and
    without asking the directory, when no server is configured. *)
Theorem service_infos_hands_out_connected_servers (env : Env)
    (type_filter : option string) (w : World) :
  (forall active,
      fst (service_infos env type_filter w) = Ok (Some active) ->
      active <> []
      /\ List.NoDup (map fst active)
      /\ exists services,
          get_services env type_filter (Some (_mediaservers (self w)))
          = Ok (Some services)
          /\ (forall name svc,
                 dict_get active name = Some svc ->
                 is_inactive svc = false /\ In (name, svc) services)
          /\ (forall name svc,
                 In (name, svc) services -> is_inactive svc = false ->
                 exists svc', dict_get active name = Some svc'
                              /\ is_inactive svc' = false))
  /\ (_mediaservers (self w) = [] ->
      service_infos env type_filter w
      = (Ok None, w_add w [Log WARNING "尚未配置媒体服务器，请检查配置"])).
Proof.
  split.
  - intros active Hact.
    destruct (service_infos_run env type_filter w) as [effs Hrun].
    rewrite Hrun in Hact. cbn [fst] in Hact. unfold active_services_of in Hact.
    destruct (is_nil (_mediaservers (self w))); [discriminate|].
    destruct (get_services env type_filter (Some (_mediaservers (self w))))
      as [[[|s services]|]|x]; try discriminate.
    remember (active_of (s :: services) []) as act eqn:Hdef.
    destruct act as [|a act]; [discriminate|].
    injection Hact as <-. split; [discriminate|]. rewrite Hdef. split.
    + apply active_of_nodup. constructor.
    + exists (s :: services). split; [reflexivity|]. split.
      * intros name svc Hg. apply active_of_sound in Hg as [Hg|Hg];
          [discriminate | exact Hg].
      * intros name svc Hin Hi. eapply active_of_complete; eassumption.
  - intros Hnone. unfold service_infos. run_monad. rewrite Hnone. reflexivity.
Qed.

Lemma service_infos_hands_out_connected_servers_witness :
  service_infos (Sample.env_at 0) None Sample2.world_no_servers
  = (Ok None, w_add Sample2.world_no_servers
                [Log WARNING "尚未配置媒体服务器，请检查配置"]).
Proof.
  apply (proj2 (service_infos_hands_out_connected_servers
                  (Sample.env_at 0) None Sample2.world_no_servers)).
  reflexivity.
Defined.

(** ** The verdict of the filter *)

Lemma accept_value env event_data w :
  fst (accept env event_data w) = accept_decision env (self w) event_data.
Proof.
  unfold accept, accept_decision, service_info. run_monad.
  destruct (_enabled (self w)); [|reflexivity]. cbn [negb].
  destruct event_data as [event_info|]; [|reflexivity].
  destruct (PyStr.truthy (dict_get_opt _webhook_actions (event event_info)));
    [|reflexivity]. cbn [negb].
  destruct (msgflag (_types (self w)) (event event_info)); [|reflexivity]. cbn [negb].
  destruct (service_infos_run env None w) as [e1 H1]. rewrite H1.
  destruct (active_services_of env (_mediaservers (self w)) None) as [infos|x] eqn:Hinfos;
    [|reflexivity].
  destruct (dict_truthy infos); [|reflexivity]. cbn [negb fst snd self trace].
  destruct (PyStr.truthy (server_name event_info)); cbn [andb].
  - destruct (service_infos_run env None (w_add w e1)) as [e2 H2]. rewrite H2.
    cbn [w_add self]. rewrite Hinfos. cbn [fst snd self trace].
    destruct (bool_decide (is_Some (dict_get_opt (default [] infos)
                                      (server_name event_info)))); cbn [negb];
      [|reflexivity].
    destruct (PyStr.truthy (channel event_info)); [|reflexivity].
    match goal with
    | |- context [service_infos env (channel event_info) ?w0] =>
        destruct (service_infos_run env (channel event_info) w0) as [e3 H3]; rewrite H3
    end.
    cbn [w_add self].
    destruct (active_services_of env (_mediaservers (self w)) (channel event_info))
      as [typed|x]; [|reflexivity].
    cbn [fst snd self trace]. destruct (dict_truthy typed); reflexivity.
  - destruct (PyStr.truthy (channel event_info)); [|reflexivity].
    match goal with
    | |- context [service_infos env (channel event_info) ?w0] =>
        destruct (service_infos_run env (channel event_info) w0) as [e3 H3]; rewrite H3
    end.
    cbn [w_add self].
    destruct (active_services_of env (_mediaservers (self w)) (channel event_info))
      as [typed|x]; [|reflexivity].
    cbn [fst snd self trace]. destruct (dict_truthy typed); reflexivity.
Qed.

Lemma dict_truthy_some {A} (o : option (list A)) :
  dict_truthy o = true <-> exists x l, o = Some (x :: l).
Proof.
  destruct o as [[|x l]|]; simpl; split; try discriminate; eauto;
    intros (x' & l' & H); discriminate.
Qed.

Lemma active_services_nonempty env ms type_filter active :
  active_services_of env ms type_filter = Ok (Some active) -> dict_truthy (Some active) = true.
Proof.
  unfold active_services_of. destruct (is_nil ms); [discriminate|].
  destruct (get_services env type_filter (Some ms)) as [[[|s services]|]|x];
    try discriminate.
  destruct (active_of (s :: services) []) as [|a l]; cbn [is_nil]; [discriminate|].
  intros [= <-]. reflexivity.
Qed.

(** X13. The filter lets an event pass exactly when the plugin is
    enabled, the event has data, its kind is a key of the label table and a
    member of a selected group, at least one configured server is
    connected, the server the event names (if any) is among the connected
    ones, and a connected server of the type it names (if any) exists.  The
    verdict depends on the settings and on the answers of the directory
    only, not on the trace or the key dictionary. *)
Theorem accept_passes_exactly_when (env : Env) (event_data : option WebhookEventInfo)
    (w : World) :
  fst (accept env event_data w) = accept_decision env (self w) event_data
  /\ (fst (accept env event_data w) = Ok true <->
      exists event_info,
        event_data = Some event_info
        /\ _enabled (self w) = true
        /\ (exists kind label,
               event event_info = Some kind
               /\ dict_get _webhook_actions kind = Some label)
        /\ msgflag (_types (self w)) (event event_info) = true
        /\ exists active,
            active_services_of env (_mediaservers (self w)) None = Ok (Some active)
            /\ (PyStr.truthy (server_name event_info) = true ->
                exists svc, dict_get_opt active (server_name event_info) = Some svc)
            /\ (PyStr.truthy (channel event_info) = true ->
                exists typed,
                  active_services_of env (_mediaservers (self w)) (channel event_info)
                  = Ok (Some typed))).
Proof.
  split; [apply accept_value|]. rewrite accept_value. unfold accept_decision. split.
  - destruct (_enabled (self w)); [|discriminate]. cbn [negb].
    destruct event_data as [event_info|]; [|discriminate].
    destruct (dict_get_opt _webhook_actions (event event_info)) as [label|] eqn:Hl;
      [|discriminate].
    destruct (PyStr.truthy (Some label)); [|discriminate]. cbn [negb].
    destruct (msgflag (_types (self w)) (event event_info)) eqn:Hm; [|discriminate].
    cbn [negb].
    destruct (active_services_of env (_mediaservers (self w)) None)
      as [[[|s active]|]|x] eqn:Hinfos; try discriminate.
    cbn [dict_truthy negb default from_option id].
    intros H. exists event_info. split; [reflexivity|]. split; [reflexivity|]. split.
    { destruct (event event_info) as [kind|]; [|discriminate Hl]. eauto. }
    split; [exact Hm|]. exists (s :: active). split; [reflexivity|].
    destruct (PyStr.truthy (server_name event_info)); cbn [andb] in H.
    + destruct (bool_decide (is_Some (dict_get_opt (s :: active)
                                        (server_name event_info)))) eqn:Hn;
        [|discriminate]. cbn [negb] in H. split.
      * intros _. apply bool_decide_eq_true in Hn. exact Hn.
      * destruct (PyStr.truthy (channel event_info)); [|discriminate].
        intros _.
        destruct (active_services_of env (_mediaservers (self w))
                    (channel event_info)) as [[[|t typed]|]|x]; try discriminate.
        eauto.
    + split; [discriminate|].
      destruct (PyStr.truthy (channel event_info)); [|discriminate].
      intros _.
      destruct (active_services_of env (_mediaservers (self w))
                  (channel event_info)) as [[[|t typed]|]|x]; try discriminate.
      eauto.
  - intros (event_info & -> & -> & (kind & label & Hk & Hl) & -> & active & Hact & Hn & Ht).
    cbn [negb]. rewrite Hk. cbn [dict_get_opt]. rewrite Hl. cbn [PyStr.truthy].
    rewrite (labels_nonempty _ _ Hl). cbn [negb]. rewrite Hact.
    rewrite (active_services_nonempty _ _ _ _ Hact). cbn [negb default from_option id].
    destruct (PyStr.truthy (server_name event_info)); cbn [andb].
    + destruct (Hn eq_refl) as [svc Hsvc].
      rewrite bool_decide_eq_true_2 by (rewrite Hsvc; eauto). cbn [negb].
      destruct (PyStr.truthy (channel event_info)); [|reflexivity].
      destruct (Ht eq_refl) as [typed Htyped]. rewrite Htyped.
      rewrite (active_services_nonempty _ _ _ _ Htyped). reflexivity.
    + destruct (PyStr.truthy (channel event_info)); [|reflexivity].
      destruct (Ht eq_refl) as [typed Htyped]. rewrite Htyped.
      rewrite (active_services_nonempty _ _ _ _ Htyped). reflexivity.
Qed.

(** ** Stop events, start events and the other kinds *)

(** X14. For an accepted [playback.stop] event the dictionary decides by
    membership alone: if the key is there, with whatever expiry, the run
    ends after the filter with nothing posted and the expiry set to now +
    600; if it is not there and the message is composed, the message is
    handed to the channel and the key is stored with expiry now + 600. *)
Theorem stop_event_decided_by_membership (env : Env) (event_info : WebhookEventInfo)
    (w w1 : World)
    (Hacc : accept env (Some event_info) w = (Ok true, w1))
    (Hstop : event_is event_info "playback.stop" = true) :
  (forall expiry,
      _webhook_msg_keys (self w) !! expiring_key event_info = Some expiry ->
      send env (Some event_info) w
      = (Ok tt,
         {| self := set_keys (self w)
                      (<[expiring_key event_info := time_time env + 600]>
                         (_webhook_msg_keys (self w)));
            trace := trace w1 |}))
  /\ (forall m w2,
         _webhook_msg_keys (self w) !! expiring_key event_info = None ->
         compose env event_info w1 = (Ok m, w2) ->
         last (trace (snd (send env (Some event_info) w))) = Some (post_of m)
         /\ _webhook_msg_keys (self (snd (send env (Some event_info) w)))
            !! expiring_key event_info = Some (time_time env + 600)).
Proof.
  split.
  - intros expiry Hkey. exact (stop_with_present_key _ _ _ _ _ Hacc Hstop Hkey).
  - intros m w2 Hkey Hc. exact (stop_with_absent_key _ _ _ _ _ _ Hacc Hstop Hkey Hc).
Qed.

Lemma stop_event_decided_by_membership_witness :
  send (Sample.env_at 1000) (Some Sample.stop_event)
    (Sample.world_with {[ Sample.key := 600 ]})
  = (Ok tt,
     {| self := set_keys (self (Sample.world_with {[ Sample.key := 600 ]}))
                  (<[expiring_key Sample.stop_event := 1000 + 600]>
                     {[ Sample.key := 600 ]});
        trace := [GetServices None (Some ["emby"]);
                  GetServices (Some "emby") (Some ["emby"])] |}).
Proof.
  refine (proj1 (stop_event_decided_by_membership (Sample.env_at 1000)
                   Sample.stop_event (Sample.world_with {[ Sample.key := 600 ]})
                   {| self := Sample.plugin_with {[ Sample.key := 600 ]};
                      trace := [GetServices None (Some ["emby"]);
                                GetServices (Some "emby") (Some ["emby"])] |}
                   _ eq_refl) 600 _).
  - vm_compute. reflexivity.
  - vm_compute. reflexivity.
Defined.

(** X15. An accepted event of a kind other than [playback.stop] and
    [library.new] whose message is composed is handed to the channel
    whatever the dictionary holds; if its kind is not [playback.start]
    either, the plugin object is left as it was.  So [media.stop] and
    [PlaybackStop] events are never held back, and [media.play] and
    [PlaybackStart] events never remove a key. *)
Theorem other_kinds_ignore_the_dictionary (env : Env) (event_info : WebhookEventInfo)
    (w w1 w2 : World) (m : Message)
    (Hacc : accept env (Some event_info) w = (Ok true, w1))
    (Hstop : event_is event_info "playback.stop" = false)
    (Hnew : event_is event_info "library.new" = false)
    (Hcomposed : compose env event_info w1 = (Ok m, w2)) :
  send env (Some event_info) w
  = (post_message env MediaServer (msg_title m) (msg_text m) (msg_image m) (msg_link m),
     {| self := set_keys (self w)
                  (keys_after env event_info (_webhook_msg_keys (self w)));
        trace := (trace w2 ++ [post_of m])%list |})
  /\ (event_is event_info "playback.start" = false ->
      self (snd (send env (Some event_info) w)) = self w).
Proof.
  assert (Hdup : is_duplicate_stop event_info w1 = false).
  { unfold is_duplicate_stop. rewrite Hstop. reflexivity. }
  destruct (send_notifies env event_info w w1 Hacc Hdup) as (effs & Hsend & Heff).
  rewrite (Heff Hnew), w_add_nil in Hsend.
  rewrite (notify_run _ _ _ _ _ Hcomposed) in Hsend.
  rewrite (composed_self _ _ _ _ _ Hcomposed), (accepted_self _ _ _ _ _ Hacc) in Hsend.
  split; [exact Hsend|]. intros Hstart. rewrite Hsend. cbn [snd self].
  rewrite (keys_after_idle _ _ _ Hstop Hstart). apply set_keys_same.
Qed.

Lemma other_kinds_ignore_the_dictionary_witness :
  existsb is_post
    (trace (snd (send (Sample.env_at 1000) (Some Sample3.plex_stop_event)
                   (Sample.world_with {[ Sample.key := 5000 ]})))) = true
  /\ self (snd (send (Sample.env_at 1000) (Some Sample3.plex_stop_event)
                  (Sample.world_with {[ Sample.key := 5000 ]})))
     = self (Sample.world_with {[ Sample.key := 5000 ]}).
Proof.
  split; [vm_compute; reflexivity|].
  refine (proj2 (other_kinds_ignore_the_dictionary (Sample.env_at 1000)
                   Sample3.plex_stop_event (Sample.world_with {[ Sample.key := 5000 ]})
                   _ _ _ _ eq_refl eq_refl _) eq_refl).
  - vm_compute. reflexivity.
  - vm_compute. reflexivity.
Defined.

(** ** The parts of the message *)

Lemma endswith_refl (s : string) : PyStr.endswith s s = true.
Proof. apply endswith_app. exists "". reflexivity. Qed.

Lemma append_assoc (a b c : string) : (a +:+ b) +:+ c = a +:+ b +:+ c.
Proof. induction a as [|x a IH]; simpl; [reflexivity | rewrite IH; reflexivity]. Qed.

Lemma endswith_prepend (a s suf : string) :
  PyStr.endswith s suf = true -> PyStr.endswith (a +:+ s) suf = true.
Proof.
  rewrite !endswith_app. intros [stem ->]. exists (a +:+ stem).
  symmetry. apply append_assoc.
Qed.

Lemma join_lines_last (l : list string) (x : string) :
  PyStr.endswith (join_lines (l ++ [x])%list) x = true.
Proof.
  induction l as [|a l IH]; [apply endswith_refl|].
  change ((a :: l) ++ [x])%list with (a :: (l ++ [x]))%list.
  cbn [join_lines]. destruct (l ++ [x])%list as [|y r] eqn:E.
  - destruct l; discriminate E.
  - apply endswith_prepend, endswith_prepend. exact IH.
Qed.

(** X16. The text of a message always ends with the time line.  The
    location of the address is asked for exactly when the event has an IP
    address, once, before anything else the composition asks; if that call
    raises, so does the text step. *)
Theorem message_text_ends_with_time_line (env : Env) (event_info : WebhookEventInfo)
    (w : World) :
  if PyStr.truthy (ip event_info) then
    match get_location env (PyStr.fmt (ip event_info)) with
    | Ok _ =>
        exists text,
          message_content env event_info w
          = (Ok text, w_add w [GetLocation (PyStr.fmt (ip event_info))])
          /\ PyStr.endswith text (time_line env) = true
    | Raise x =>
        message_content env event_info w
        = (Raise x, w_add w [GetLocation (PyStr.fmt (ip event_info))])
    end
  else
    exists text,
      message_content env event_info w = (Ok text, w)
      /\ PyStr.endswith text (time_line env) = true.
Proof.
  unfold message_content, time_line. run_monad.
  destruct (PyStr.truthy (ip event_info)); cbn [fst snd self trace].
  - destruct (get_location env (PyStr.fmt (ip event_info))) as [loc|x]; [|reflexivity].
    eexists. split; [reflexivity|].
    rewrite !app_assoc. apply join_lines_last.
  - eexists. split; [reflexivity|].
    rewrite !app_assoc. apply join_lines_last.
Qed.

Example message_text_sample :
  fst (message_content (Sample.env_at 0) Sample.stop_event (Sample.world_with ∅))
  = Ok ("用户：ann" +:+ String "010" ("设备：Emby Web TV set" +:+ String "010"
          "时间：2025-01-01 12:00:00")).
Proof. vm_compute. reflexivity. Qed.

(** X17. Without a TMDB id no image is looked up: the image is the url
    the event brings when it brings one, else the icon of its server type,
    and the world is untouched. *)
Theorem image_without_tmdb_id (env : Env) (event_info : WebhookEventInfo) (w : World)
    (Hno : PyStr.truthy (tmdb_id event_info) = false) :
  resolve_image env event_info w
  = (Ok (if PyStr.truthy (image_url event_info) then image_url event_info
         else dict_get_opt _webhook_images (channel event_info)),
     w).
Proof.
  unfold resolve_image. run_monad. rewrite Hno. cbn [fst snd].
  destruct (PyStr.truthy (image_url event_info)); reflexivity.
Qed.

Lemma image_without_tmdb_id_witness :
  resolve_image (Sample.env_image (Some "http://image.tmdb.org/backdrop.jpg"))
    Sample.stop_event (Sample.world_with ∅)
  = (Ok (Some "https://emby.media/notificationicon.png"), Sample.world_with ∅).
Proof.
  exact (image_without_tmdb_id
           (Sample.env_image (Some "http://image.tmdb.org/backdrop.jpg"))
           Sample.stop_event (Sample.world_with ∅) eq_refl).
Defined.

(** ** The play link *)

(** X18. With the play link switched off, or for an event that names
    neither a server nor a server type, the link is absent and nothing is
    asked of anyone. *)
Theorem play_link_absent (env : Env) (event_info : WebhookEventInfo) (w : World)
    (Hoff : _add_play_link (self w) = false
            \/ (PyStr.truthy (server_name event_info) = false
                /\ PyStr.truthy (channel event_info) = false)) :
  resolve_play_link env event_info w = (Ok None, w).
Proof.
  unfold resolve_play_link. run_monad.
  destruct Hoff as [-> | [-> ->]]; [reflexivity|].
  destruct (_add_play_link (self w)); reflexivity.
Qed.

Lemma play_link_absent_witness :
  resolve_play_link (Sample.env_at 0) Sample.stop_event (Sample.world_with ∅)
  = (Ok None, Sample.world_with ∅).
Proof. apply play_link_absent. left. reflexivity. Defined.

Lemma first_play_url_run services iid init w :
  match fst (first_play_url services iid init w) with
  | Ok link =>
      (exists pre name svc post,
          services = (pre ++ (name, svc) :: post)%list
          /\ get_play_url svc iid = Ok link
          /\ PyStr.truthy link = true
          /\ Forall (no_play_url iid) pre
          /\ snd (first_play_url services iid init w)
             = w_add w (List.repeat (GetPlayUrl iid) (S (length pre))))
      \/ (Forall (no_play_url iid) services
          /\ snd (first_play_url services iid init w)
             = w_add w (List.repeat (GetPlayUrl iid) (length services))
          /\ (services = [] -> link = init)
          /\ (services <> [] -> PyStr.truthy link = false))
  | Raise x =>
      exists pre name svc post,
        services = (pre ++ (name, svc) :: post)%list
        /\ get_play_url svc iid = Raise x
        /\ Forall (no_play_url iid) pre
        /\ snd (first_play_url services iid init w)
           = w_add w (List.repeat (GetPlayUrl iid) (S (length pre)))
  end.
Proof.
  revert init w. induction services as [|[name svc] rest IH]; intros init w.
  - cbn. right. rewrite w_add_nil. repeat split; [constructor | congruence].
  - cbn [first_play_url]. run_monad.
    destruct (get_play_url svc iid) as [link|x] eqn:Hg; cbn [fst snd].
    + destruct (PyStr.truthy link) eqn:Ht; cbn [fst snd].
      * left. exists [], name, svc, rest. repeat split; try assumption; constructor.
      * specialize (IH link {| self := self w;
                               trace := (trace w ++ [GetPlayUrl iid])%list |}).
        change {| self := self w; trace := (trace w ++ [GetPlayUrl iid])%list |}
          with (w_add w [GetPlayUrl iid]) in *.
        destruct (first_play_url rest iid link (w_add w [GetPlayUrl iid]))
          as [[link'|x] w'] eqn:Hrec; cbn [fst snd] in *.
        -- destruct IH as [(pre & n & s & post & -> & Hs & Htl & Hpre & Hw)
                          | (Hall & Hw & Hnil & Hne)].
           ++ left. exists ((name, svc) :: pre), n, s, post.
              repeat split; try assumption.
              ** constructor; [exists link; tauto | assumption].
              ** rewrite Hw, w_add_add. reflexivity.
           ++ right. split; [constructor; [exists link; tauto | assumption]|].
              split; [rewrite Hw, w_add_add; reflexivity|].
              split; [discriminate|]. intros _.
              destruct rest as [|r rest']; [rewrite (Hnil eq_refl); exact Ht|].
              apply Hne. discriminate.
        -- destruct IH as (pre & n & s & post & -> & Hs & Hpre & Hw).
           exists ((name, svc) :: pre), n, s, post. repeat split; try assumption.
           ++ constructor; [exists link; tauto | assumption].
           ++ rewrite Hw, w_add_add. reflexivity.
    + exists [], name, svc, rest. repeat split; try assumption; constructor.
Qed.

(** X19. Over the servers of a type the play link is the first non-empty
    answer: every server before it was asked and had none, no server after
    it is asked; when no server has one the link is empty or absent; when a
    server raises, the servers before it had none and the exception leaves
    the loop. *)
Theorem play_link_is_first_nonempty_answer (services : Services)
    (iid : option string) (w : World) :
  match fst (first_play_url services iid None w) with
  | Ok link =>
      (PyStr.truthy link = true
       /\ exists pre name svc post,
           services = (pre ++ (name, svc) :: post)%list
           /\ get_play_url svc iid = Ok link
           /\ Forall (no_play_url iid) pre
           /\ snd (first_play_url services iid None w)
              = w_add w (List.repeat (GetPlayUrl iid) (S (length pre))))
      \/ (PyStr.truthy link = false
          /\ Forall (no_play_url iid) services
          /\ snd (first_play_url services iid None w)
             = w_add w (List.repeat (GetPlayUrl iid) (length services)))
  | Raise x =>
      exists pre name svc post,
        services = (pre ++ (name, svc) :: post)%list
        /\ get_play_url svc iid = Raise x
        /\ Forall (no_play_url iid) pre
        /\ snd (first_play_url services iid None w)
           = w_add w (List.repeat (GetPlayUrl iid) (S (length pre)))
  end.
Proof.
  pose proof (first_play_url_run services iid None w) as H.
  destruct (fst (first_play_url services iid None w)) as [link|x]; [|exact H].
  destruct H as [(pre & n & s & post & Hs & Hg & Ht & Hpre & Hw)
                | (Hall & Hw & Hnil & Hne)].
  - left. split; [exact Ht|]. exists pre, n, s, post. tauto.
  - right. split; [|tauto].
    destruct services as [|s rest]; [rewrite (Hnil eq_refl); reflexivity|].
    apply Hne. discriminate.
Qed.

Example play_link_second_server :
  first_play_url Sample4.two_services (Some "42") None (Sample.world_with ∅)
  = (Ok (Some "http://b/play"),
     w_add (Sample.world_with ∅) [GetPlayUrl (Some "42"); GetPlayUrl (Some "42")]).
Proof. reflexivity. Qed.

(** ** Exceptions during the composition *)

(** X20. When a lookup made while the message is composed raises, for an
    accepted event that is neither a duplicate stop nor a new item, the
    exception leaves [send] at once: nothing is posted and the plugin
    object, its key dictionary included, is as it was; a [playback.start]
    event then does not remove its key. *)
Theorem failed_lookup_skips_dictionary_update (env : Env)
    (event_info : WebhookEventInfo) (w w1 w2 : World) (x : exn)
    (Hacc : accept env (Some event_info) w = (Ok true, w1))
    (Hdup : is_duplicate_stop event_info w = false)
    (Hnew : event_is event_info "library.new" = false)
    (Hraised : compose env event_info w1 = (Raise x, w2)) :
  send env (Some event_info) w = (Raise x, w2)
  /\ self w2 = self w
  /\ exists effs, trace w2 = (trace w ++ effs)%list /\ List.filter is_post effs = [].
Proof.
  pose proof (accepted_self _ _ _ _ _ Hacc) as Hs1.
  assert (Hdup1 : is_duplicate_stop event_info w1 = false).
  { rewrite (is_duplicate_stop_self _ w w1 Hs1). exact Hdup. }
  destruct (send_notifies env event_info w w1 Hacc Hdup1) as (effs & Hsend & Heff).
  rewrite (Heff Hnew), w_add_nil, (notify_raise _ _ _ _ _ Hraised) in Hsend.
  split; [exact Hsend|].
  split; [rewrite (composed_self _ _ _ _ _ Hraised); exact Hs1|].
  destruct (accept_run _ _ _ _ _ Hacc) as (e1 & -> & Hf1).
  destruct (compose_run _ _ _ _ _ Hraised) as (e2 & -> & Hf2).
  exists (e1 ++ e2)%list. split.
  - cbn [w_add trace]. rewrite app_assoc. reflexivity.
  - rewrite List.filter_app,
      (filter_excluded _ _ _ accept_effect_no_post Hf1),
      (filter_excluded _ _ _ compose_effect_no_post Hf2). reflexivity.
Qed.

Lemma failed_lookup_skips_dictionary_update_witness :
  fst (send Sample4.env_lookup_fails (Some Sample4.start_event_with_tmdb)
         (Sample.world_with {[ Sample.key := 600 ]}))
  = Raise (OtherException "lookup failed")
  /\ _webhook_msg_keys
       (self (snd (send Sample4.env_lookup_fails (Some Sample4.start_event_with_tmdb)
                     (Sample.world_with {[ Sample.key := 600 ]}))))
     !! Sample.key = Some 600.
Proof.
  pose proof (failed_lookup_skips_dictionary_update Sample4.env_lookup_fails
                Sample4.start_event_with_tmdb
                (Sample.world_with {[ Sample.key := 600 ]})
                (snd (accept Sample4.env_lookup_fails
                        (Some Sample4.start_event_with_tmdb)
                        (Sample.world_with {[ Sample.key := 600 ]})))
                (snd (compose Sample4.env_lookup_fails Sample4.start_event_with_tmdb
                        (snd (accept Sample4.env_lookup_fails
                                (Some Sample4.start_event_with_tmdb)
                                (Sample.world_with {[ Sample.key := 600 ]})))))
                (OtherException "lookup failed")
                eq_refl eq_refl eq_refl eq_refl) as (Hsend & Hself & _).
  rewrite Hsend. cbn [fst snd]. split; [reflexivity|]. rewrite Hself. reflexivity.
Defined.

(** ** More on the rescan trigger *)

(** X21. Without an item path the trigger logs one warning and returns;
    with a path that contains none of the patterns it logs the warning of
    the resolver and its own and returns.  In neither case is a command
    run, whatever the item type. *)
Theorem rescan_needs_path_and_category (env : Env) (event_info : WebhookEventInfo)
    (w : World) :
  match PyStr.or_none (item_path event_info) with
  | None =>
      _execute_curl_command env event_info w
      = (Ok tt, w_add w [Log WARNING "无法获取媒体文件路径，跳过curl命令执行"])
  | Some media_path =>
      scan_mapping _path_mapping media_path = None ->
      _execute_curl_command env event_info w
      = (Ok tt,
         w_add w [Log WARNING ("路径 '" +:+ media_path +:+ "' 未匹配到任何已知模式");
                  Log WARNING ("无法从路径 '" +:+ media_path
                               +:+ "' 确定变量一，跳过curl命令执行")])
  end.
Proof.
  unfold _execute_curl_command, _execute_curl_command_body, _get_variable_one_from_path.
  destruct (PyStr.or_none (item_path event_info)) as [path|] eqn:Hp.
  - intros Hs. rewrite Hs.
    assert (Hne : PyStr.nonempty path = true).
    { unfold PyStr.or_none, PyStr.truthy in Hp.
      destruct (item_path event_info) as [q|]; [|discriminate].
      destruct (PyStr.nonempty q) eqn:Hq; [|discriminate]. congruence. }
    rewrite Hne. run_monad. close_world.
  - run_monad. reflexivity.
Qed.

Lemma flat_mapping_range :
  Forall (fun pc => 0 <= snd pc <= 12) (flat_mapping _path_mapping).
Proof. repeat constructor; simpl; lia. Qed.

(** X22. The resolver returns a category between 0 and 12 or nothing; it
    logs nothing for the empty path and exactly one entry otherwise, an
    information when a pattern is found and a warning when none is; it
    leaves the plugin object alone and never raises. *)
Theorem get_variable_one_range_and_log (media_path : string) (w : World) :
  exists logs,
    _get_variable_one_from_path media_path w
    = (Ok (resolveCategory media_path), w_add w logs)
    /\ (forall v, resolveCategory media_path = Some v -> 0 <= v <= 12)
    /\ match logs with
       | [] => media_path = ""
       | [Log INFO _] => media_path <> "" /\ resolveCategory media_path <> None
       | [Log WARNING _] => media_path <> "" /\ resolveCategory media_path = None
       | _ => False
       end.
Proof.
  assert (Hrange : forall v, resolveCategory media_path = Some v -> 0 <= v <= 12).
  { intros v Hv. apply resolveCategory_some in Hv as (pre & pat & post & Hf & _).
    pose proof flat_mapping_range as Hr. rewrite Hf in Hr.
    apply Forall_app in Hr as [_ Hr]. apply Forall_cons_1 in Hr as [Hr _]. exact Hr. }
  unfold _get_variable_one_from_path, resolveCategory in *.
  rewrite <- scan_mapping_find in *.
  destruct media_path as [|c s].
  - exists []. rewrite w_add_nil. split; [reflexivity|].
    split; [exact Hrange | reflexivity].
  - cbn [PyStr.nonempty String.eqb negb].
    destruct (scan_mapping _path_mapping (String c s)) as [[pat v]|]; run_monad.
    + eexists [_]. split; [reflexivity|]. split; [exact Hrange|].
      split; discriminate.
    + eexists [_]. split; [reflexivity|]. split; [exact Hrange|].
      split; [discriminate | reflexivity].
Qed.

(** ** The parent directory *)

Lemma rfind_absent (c : ascii) (s : string) :
  PyStr.contains (String c "") s = false -> PyStr.rfind c s = -1.
Proof.
  induction s as [|a s IH]; [reflexivity|].
  cbn [PyStr.contains String.prefix]. intros H. apply orb_false_iff in H as [Hp Hc].
  cbn [PyStr.rfind]. rewrite (IH Hc). cbn [Z.leb Z.compare].
  destruct (Ascii.eqb a c) eqn:E; [|reflexivity].
  apply Ascii.eqb_eq in E. subst a.
  destruct (ascii_dec c c) as [_|Hne]; [|contradiction].
  destruct s; discriminate Hp.
Qed.

Lemma rfind_last_sep (c : ascii) (d f : string) :
  PyStr.rfind c f = -1 ->
  PyStr.rfind c (d +:+ String c f) = Z.of_nat (String.length d).
Proof.
  intros Hf. induction d as [|a d IH].
  - cbn [String.append PyStr.rfind String.length]. rewrite Hf.
    cbn [Z.leb Z.compare]. rewrite Ascii.eqb_refl. reflexivity.
  - cbn [String.append PyStr.rfind String.length]. rewrite IH.
    destruct (0 <=? Z.of_nat (String.length d)) eqn:E; [lia|].
    apply Z.leb_gt in E. lia.
Qed.

Lemma slice_through_sep (c : ascii) (d f : string) :
  PyStr.slice_to (Z.of_nat (String.length d) + 1) (d +:+ String c f)
  = d +:+ String c "".
Proof.
  unfold PyStr.slice_to.
  replace (Z.to_nat (Z.of_nat (String.length d) + 1)) with (S (String.length d)) by lia.
  induction d as [|a d IH].
  - cbn [String.append String.length String.substring]. destruct f; reflexivity.
  - cbn [String.append String.length String.substring]. rewrite IH. reflexivity.
Qed.

Lemma rstrip_repeat (c : ascii) (n : nat) : PyStr.rstrip c (PyStr.repeat_char c n) = "".
Proof.
  induction n as [|n IH]; [reflexivity|].
  cbn [PyStr.repeat_char PyStr.rstrip]. rewrite IH, Ascii.eqb_refl. reflexivity.
Qed.

Lemma rstrip_one_sep (c : ascii) (d : string) :
  d <> "" -> PyStr.endswith d (String c "") = false ->
  PyStr.rstrip c (d +:+ String c "") = d.
Proof.
  induction d as [|a d IH]; [congruence|]. intros _ He.
  cbn [PyStr.endswith] in He. apply orb_false_iff in He as [Heq Hrest].
  cbn [String.append PyStr.rstrip]. destruct d as [|b d].
  - cbn [String.append PyStr.rstrip]. rewrite Ascii.eqb_refl.
    destruct (Ascii.eqb a c) eqn:E; [|reflexivity].
    apply Ascii.eqb_eq in E. subst a. rewrite String.eqb_refl in Heq. discriminate.
  - rewrite IH; [reflexivity | discriminate | exact Hrest].
Qed.

(** X23. For a path made of a directory, one separator and a file name,
    where the directory is not empty and does not end with a separator and
    the name has no separator, [dirname] gives back the directory; so the
    secondary path of such a [.strm] file is the directory that holds it. *)
Theorem dirname_of_file_in_directory (dir name : string)
    (Hdir : dir <> "")
    (Hend : PyStr.endswith dir "/" = false)
    (Hname : PyStr.contains "/" name = false) :
  dirname (dir +:+ "/" +:+ name) = dir
  /\ (PyStr.endswith name ".strm" = true ->
      variable_two_of (dir +:+ "/" +:+ name) = dir).
Proof.
  assert (Hd : dirname (dir +:+ "/" +:+ name) = dir).
  { unfold dirname. change ("/" +:+ name) with (String "/" name).
    rewrite (rfind_last_sep "/" dir name (rfind_absent _ _ Hname)), slice_through_sep.
    rewrite (rstrip_one_sep "/" dir Hdir Hend).
    assert (Hn : PyStr.nonempty (dir +:+ "/") = true).
    { destruct dir; [congruence | reflexivity]. }
    rewrite Hn. cbn [andb].
    destruct (String.eqb (dir +:+ "/") _) eqn:E; [|reflexivity].
    apply String.eqb_eq in E.
    pose proof (rstrip_one_sep "/" dir Hdir Hend) as Hr.
    rewrite E, rstrip_repeat in Hr. congruence. }
  split; [exact Hd|]. intros Hs. unfold variable_two_of, is_strm.
  assert (He : PyStr.endswith (dir +:+ "/" +:+ name) ".strm" = true).
  { apply endswith_prepend. exact Hs. }
  rewrite He. assert (Hn : PyStr.nonempty (dir +:+ "/" +:+ name) = true).
  { destruct dir; [congruence | reflexivity]. }
  rewrite Hn. exact Hd.
Qed.

Lemma dirname_of_file_in_directory_witness :
  dirname ("/media/Show/Zongyi/ZongyiUS" +:+ "/" +:+ "bar.strm")
  = "/media/Show/Zongyi/ZongyiUS".
Proof.
  refine (proj1 (dirname_of_file_in_directory "/media/Show/Zongyi/ZongyiUS"
                   "bar.strm" _ eq_refl eq_refl)).
  discriminate.
Defined.

(** ** The form and the configuration *)

Lemma mem_in (x : string) (l : list string) : PyStr.mem x l = true <-> In x l.
Proof.
  unfold PyStr.mem. rewrite existsb_exists. split.
  - intros (y & Hin & He). apply String.eqb_eq in He. subst y. exact Hin.
  - intros Hin. exists x. split; [exact Hin | apply String.eqb_refl].
Qed.

Lemma msgflag_spec (types : list string) (kind : string) :
  msgflag types (Some kind) = true <->
  exists _type, In _type types /\ In kind (PyStr.split "|" _type).
Proof.
  induction types as [|t types IH]; cbn [msgflag].
  - split; [discriminate | intros (t & [] & _)].
  - destruct (PyStr.mem kind (PyStr.split "|" t)) eqn:E.
    + split; [|reflexivity]. intros _. exists t. split; [left; reflexivity|].
      apply mem_in. exact E.
    + rewrite IH. split.
      * intros (t' & Hin & Hk). exists t'. split; [right; exact Hin | exact Hk].
      * intros (t' & [<-|Hin] & Hk); [|eauto].
        apply mem_in in Hk. congruence.
Qed.

(** X24. The choices of the form cover exactly the recognised kinds: with
    every choice selected a kind is in a selected group if and only if it
    is a key of the label table; and no kind is offered twice. *)
Theorem form_offers_the_recognised_kinds :
  (forall kind,
      msgflag (map snd types_options) (Some kind) = true
      <-> exists label, dict_get _webhook_actions kind = Some label)
  /\ List.NoDup (flat_map (PyStr.split "|") (map snd types_options)).
Proof.
  split.
  - intros kind. rewrite msgflag_spec. split.
    + intros (t & Hin & Hk). simpl in Hin.
      repeat (destruct Hin as [<-|Hin];
              [vm_compute in Hk;
               repeat (destruct Hk as [<-|Hk]; [eexists; reflexivity|]);
               contradiction|]).
      contradiction.
    + intros [label Hl]. apply dict_get_in in Hl. simpl in Hl.
      repeat (destruct Hl as [Hl|Hl];
              [injection Hl as <- _;
               first [ exists "library.new"; split; [simpl; tauto | vm_compute; tauto]
                     | exists "playback.start|media.play|PlaybackStart";
                       split; [simpl; tauto | vm_compute; tauto]
                     | exists "playback.stop|media.stop|PlaybackStop";
                       split; [simpl; tauto | vm_compute; tauto]
                     | exists "item.rate"; split; [simpl; tauto | vm_compute; tauto]
                     | exists "system.webhooktest";
                       split; [simpl; tauto | vm_compute; tauto]
                     | exists "user.authenticated";
                       split; [simpl; tauto | vm_compute; tauto]
                     | exists "user.authenticationfailed";
                       split; [simpl; tauto | vm_compute; tauto] ]|]).
      contradiction.
  - vm_compute. repeat (constructor; [simpl; intuition discriminate|]). constructor.
Qed.

(** X25. A configuration never touches the key dictionary; an absent or
    empty one changes nothing at all; one that does not switch the plugin
    on leaves it off, and [send] then does nothing; the default data of the
    form is such a configuration. *)
Theorem init_plugin_keeps_keys (config : option Config) (p : Plugin) :
  _webhook_msg_keys (init_plugin config p) = _webhook_msg_keys p
  /\ (config_truthy config = false -> init_plugin config p = p)
  /\ (forall c, config = Some c -> config_truthy config = true ->
                default false (cfg_enabled c) = false ->
                get_state (init_plugin config p) = false
                /\ forall env event_data tr,
                    send env event_data {| self := init_plugin config p; trace := tr |}
                    = (Ok tt, {| self := init_plugin config p; trace := tr |}))
  /\ get_state (init_plugin (Some form_defaults) p) = false.
Proof.
  split; [|split; [|split]].
  - unfold init_plugin. destruct config as [c|]; [|reflexivity].
    destruct (config_truthy (Some c)); reflexivity.
  - intros H. unfold init_plugin. destruct config as [c|]; [|reflexivity].
    rewrite H. reflexivity.
  - intros c -> Ht Hoff.
    assert (Hs : get_state (init_plugin (Some c) p) = false).
    { unfold init_plugin. rewrite Ht. exact Hoff. }
    split; [exact Hs|]. intros env event_data tr.
    unfold send, accept. run_monad. unfold get_state in Hs. rewrite Hs. reflexivity.
  - reflexivity.
Qed.

Lemma init_plugin_keeps_keys_witness :
  init_plugin None (Sample.plugin_with {[ Sample.key := 600 ]})
  = Sample.plugin_with {[ Sample.key := 600 ]}.
Proof.
  exact (proj1 (proj2 (init_plugin_keeps_keys None
                         (Sample.plugin_with {[ Sample.key := 600 ]}))) eq_refl).
Defined.

Example configured_with_all_kinds :
  init_plugin (Some (config_all_kinds ["emby"])) (Sample.plugin_with ∅)
  = Sample.plugin_with ∅.
Proof. reflexivity. Qed.

(** ** What the dictionary does over a run of events *)

Lemma keys_after_keeps env event_info d key :
  ~ starts_key key event_info ->
  is_Some (d !! key) -> is_Some (keys_after env event_info d !! key).
Proof.
  intros Hns [v Hv]. unfold keys_after.
  assert (H1 : is_Some ((if event_is event_info "playback.stop"
                         then <[expiring_key event_info := time_time env + 600]> d
                         else d) !! key)).
  { destruct (event_is event_info "playback.stop"); [|eauto].
    destruct (decide (expiring_key event_info = key)) as [->|Hne].
    - rewrite lookup_insert_eq. eauto.
    - rewrite lookup_insert_ne by exact Hne. eauto. }
  destruct (event_is event_info "playback.start") eqn:Hstart; [|exact H1].
  rewrite filter_ne_delete, lookup_delete_ne; [exact H1|].
  intros Heq. apply Hns. split; [exact Hstart | exact Heq].
Qed.

Lemma send_keeps_key env event_info w key :
  ~ starts_key key event_info ->
  is_Some (_webhook_msg_keys (self w) !! key) ->
  is_Some (_webhook_msg_keys (self (snd (send env (Some event_info) w))) !! key).
Proof.
  intros Hns Hin.
  destruct (send_outcome_holds env (Some event_info) w)
    as [r e_acc Hacc Hr Hfa
       | e e_acc He Hacc Hfa Hdup
       | e e_acc e_res e_cmp x He Hacc Hfa Hdup Hfr Hn Hnew Hc Hfc
       | e e_acc e_res e_cmp m He Hacc Hfa Hdup Hfr Hn Hnew Hc Hfc];
    cbn [snd w_add self set_keys _webhook_msg_keys]; try exact Hin.
  - destruct (decide (expiring_key e = key)) as [->|Hne].
    + rewrite lookup_insert_eq. eauto.
    + rewrite lookup_insert_ne by exact Hne. exact Hin.
  - injection He as <-. apply keys_after_keeps; assumption.
Qed.

(** X26. Time never removes a key.  Over any run of events, at whatever
    times and with whatever outcomes, a key that is in the dictionary stays
    there unless one of the events is a [playback.start] for that key. *)
Theorem key_stays_until_its_start_event (events : list (Env * WebhookEventInfo))
    (w : World) (key : string)
    (Hin : is_Some (_webhook_msg_keys (self w) !! key))
    (Hnostart : Forall (fun ev => ~ starts_key key (snd ev)) events) :
  is_Some (_webhook_msg_keys (self (run_sends events w)) !! key).
Proof.
  revert w Hin. induction Hnostart as [|[env e] rest Hns _ IH]; intros w Hin.
  - exact Hin.
  - cbn [run_sends]. apply IH. apply send_keeps_key; assumption.
Qed.

Lemma key_stays_until_its_start_event_witness :
  is_Some (_webhook_msg_keys
             (self (run_sends [(Sample.env_at 700, Sample.stop_event);
                               (Sample.env_at 5000, Sample3.plex_stop_event)]
                      (Sample.world_with {[ Sample.key := 600 ]})))
           !! Sample.key).
Proof.
  apply key_stays_until_its_start_event.
  - vm_compute. eauto.
  - repeat constructor; intros [H _]; discriminate H.
Defined.

Lemma stop_with_key_posts_nothing env event_info w key :
  stops_key key event_info ->
  is_Some (_webhook_msg_keys (self w) !! key) ->
  exists effs,
    trace (snd (send env (Some event_info) w)) = (trace w ++ effs)%list
    /\ List.filter is_post effs = []
    /\ is_Some (_webhook_msg_keys (self (snd (send env (Some event_info) w))) !! key).
Proof.
  intros [Hstop Hkey] Hin.
  assert (Hk : is_Some (_webhook_msg_keys (self (snd (send env (Some event_info) w)))
                        !! key)).
  { apply send_keeps_key; [|exact Hin]. intros [Hstart _].
    rewrite (event_is_exclusive _ _ "playback.start" Hstop) in Hstart; discriminate. }
  assert (Hdup' : is_duplicate_stop event_info w = true).
  { unfold is_duplicate_stop. rewrite Hstop, Hkey. cbn [andb].
    apply key_in_keys_spec. destruct Hin as [v Hv]. eauto. }
  destruct (send_outcome_holds env (Some event_info) w)
    as [r e_acc Hacc Hr Hfa
       | e e_acc He Hacc Hfa Hdup
       | e e_acc e_res e_cmp x He Hacc Hfa Hdup Hfr Hn Hnew Hc Hfc
       | e e_acc e_res e_cmp m He Hacc Hfa Hdup Hfr Hn Hnew Hc Hfc];
    cbn [snd w_add self trace] in *.
  - exists e_acc. split; [reflexivity|]. split; [|exact Hk].
    exact (filter_excluded _ _ _ accept_effect_no_post Hfa).
  - exists e_acc. split; [reflexivity|]. split; [|exact Hk].
    exact (filter_excluded _ _ _ accept_effect_no_post Hfa).
  - injection He as <-. congruence.
  - injection He as <-. congruence.
Qed.

Lemma stops_with_key_post_nothing (events : list (Env * WebhookEventInfo))
    (w : World) (key : string) :
  Forall (fun ev => stops_key key (snd ev)) events ->
  is_Some (_webhook_msg_keys (self w) !! key) ->
  exists effs,
    trace (run_sends events w) = (trace w ++ effs)%list
    /\ List.filter is_post effs = [].
Proof.
  intros Hall. revert w. induction Hall as [|[env e] rest Hs _ IH]; intros w Hin.
  - exists []. split; [symmetry; apply app_nil_r | reflexivity].
  - cbn [run_sends].
    destruct (stop_with_key_posts_nothing env e w key Hs Hin) as (e1 & Ht1 & Hf1 & Hk).
    destruct (IH _ Hk) as (e2 & Ht2 & Hf2).
    exists (e1 ++ e2)%list. split.
    + rewrite Ht2, Ht1, app_assoc. reflexivity.
    + rewrite List.filter_app, Hf1, Hf2. reflexivity.
Qed.

(** X27. Over a run of [playback.stop] events for one key with no start
    event in between, at most one message is handed to the channel, however
    much time lies between the events. *)
Theorem stops_of_one_key_post_at_most_once (events : list (Env * WebhookEventInfo))
    (w : World) (key : string)
    (Hall : Forall (fun ev => stops_key key (snd ev)) events) :
  exists effs,
    trace (run_sends events w) = (trace w ++ effs)%list
    /\ (length (List.filter is_post effs) <= 1)%nat.
Proof.
  revert w. induction Hall as [|[env e] rest Hs Hrest IH]; intros w.
  - exists []. split; [symmetry; apply app_nil_r | simpl; lia].
  - cbn [run_sends]. cbn [snd] in Hs.
    destruct (send_outcome_holds env (Some e) w)
      as [r e_acc Hacc Hr Hfa
         | e' e_acc He Hacc Hfa Hdup
         | e' e_acc e_res e_cmp x He Hacc Hfa Hdup Hfr Hn Hnew Hc Hfc
         | e' e_acc e_res e_cmp m He Hacc Hfa Hdup Hfr Hn Hnew Hc Hfc].
    + destruct (IH (w_add w e_acc)) as (e2 & Ht2 & Hl2).
      exists (e_acc ++ e2)%list. cbn [snd]. split.
      * rewrite Ht2. cbn [w_add trace]. rewrite <- ?app_assoc. reflexivity.
      * rewrite List.filter_app,
          (filter_excluded _ _ _ accept_effect_no_post Hfa). exact Hl2.
    + destruct (IH {| self := set_keys (self w)
                                (<[expiring_key e' := time_time env + 600]>
                                   (_webhook_msg_keys (self w)));
                      trace := (trace w ++ e_acc)%list |}) as (e2 & Ht2 & Hl2).
      exists (e_acc ++ e2)%list. cbn [snd]. split.
      * rewrite Ht2. cbn [w_add trace]. rewrite <- ?app_assoc. reflexivity.
      * rewrite List.filter_app,
          (filter_excluded _ _ _ accept_effect_no_post Hfa). exact Hl2.
    + destruct (IH (w_add w (e_acc ++ e_res ++ e_cmp))) as (e2 & Ht2 & Hl2).
      exists ((e_acc ++ e_res ++ e_cmp) ++ e2)%list. cbn [snd]. split.
      * rewrite Ht2. cbn [w_add trace]. rewrite <- ?app_assoc. reflexivity.
      * rewrite !List.filter_app,
          (filter_excluded _ _ _ accept_effect_no_post Hfa),
          (filter_excluded _ _ _ rescan_effect_no_post Hfr),
          (filter_excluded _ _ _ compose_effect_no_post Hfc). exact Hl2.
    + injection He as <-. destruct Hs as [Hstop Hkey].
      destruct (stops_with_key_post_nothing rest
                  {| self := set_keys (self w)
                               (keys_after env e (_webhook_msg_keys (self w)));
                     trace := (trace w ++ e_acc ++ e_res ++ e_cmp ++ [post_of m])%list |}
                  key Hrest) as (e2 & Ht2 & Hf2).
      { cbn [self set_keys _webhook_msg_keys]. unfold keys_after.
        rewrite Hstop, (event_is_exclusive _ _ "playback.start" Hstop) by discriminate.
        rewrite Hkey, lookup_insert_eq. eauto. }
      exists ((e_acc ++ e_res ++ e_cmp ++ [post_of m]) ++ e2)%list. cbn [snd]. split.
      * rewrite Ht2. cbn [w_add trace]. rewrite <- ?app_assoc. reflexivity.
      * rewrite !List.filter_app,
          (filter_excluded _ _ _ accept_effect_no_post Hfa),
          (filter_excluded _ _ _ rescan_effect_no_post Hfr),
          (filter_excluded _ _ _ compose_effect_no_post Hfc), Hf2.
        simpl. lia.
Qed.

Lemma stops_of_one_key_post_at_most_once_witness :
  exists effs,
    trace (run_sends [(Sample.env_at 0, Sample.stop_event);
                      (Sample.env_at 700, Sample.stop_event);
                      (Sample.env_at 9000, Sample.stop_event)]
             (Sample.world_with ∅))
    = (trace (Sample.world_with ∅) ++ effs)%list
    /\ (length (List.filter is_post effs) <= 1)%nat.
Proof.
  apply (stops_of_one_key_post_at_most_once _ _ Sample.key).
  repeat constructor.
Defined.

Lemma rescan_needs_path_and_category_witness :
  _execute_curl_command (Sample.env_at 0)
    (Sample.event_of "library.new" (Some "MOV") (Some "/downloads/a.mkv") None None)
    (Sample.world_with ∅)
  = (Ok tt,
     w_add (Sample.world_with ∅)
       [Log WARNING ("路径 '" +:+ "/downloads/a.mkv" +:+ "' 未匹配到任何已知模式");
        Log WARNING ("无法从路径 '" +:+ "/downloads/a.mkv"
                     +:+ "' 确定变量一，跳过curl命令执行")]).
Proof.
  exact (rescan_needs_path_and_category (Sample.env_at 0)
           (Sample.event_of "library.new" (Some "MOV") (Some "/downloads/a.mkv")
              None None)
           (Sample.world_with ∅) eq_refl).
Defined.

(** ** A delivery that fails *)

(** X28. The key of a stop event is stored before the message is handed
    to the channel: when the delivery of an accepted [playback.stop] event
    with a fresh key raises, [send] raises the same exception, the key is
    in the dictionary with expiry now + 600 all the same, and the event has
    become a duplicate for the next call. *)
Theorem failed_delivery_still_stores_key (env : Env) (event_info : WebhookEventInfo)
    (w w1 w2 : World) (m : Message) (x : exn)
    (Hacc : accept env (Some event_info) w = (Ok true, w1))
    (Hstop : event_is event_info "playback.stop" = true)
    (Hfresh : _webhook_msg_keys (self w) !! expiring_key event_info = None)
    (Hcomposed : compose env event_info w1 = (Ok m, w2))
    (Hfail : post_message env MediaServer (msg_title m) (msg_text m) (msg_image m)
               (msg_link m) = Raise x) :
  fst (send env (Some event_info) w) = Raise x
  /\ _webhook_msg_keys (self (snd (send env (Some event_info) w)))
     !! expiring_key event_info = Some (time_time env + 600)
  /\ is_duplicate_stop event_info (snd (send env (Some event_info) w)) = true.
Proof.
  destruct (stop_with_absent_key env event_info w w1 m w2 Hacc Hstop Hfresh Hcomposed)
    as [_ Hkey].
  split; [|split; [exact Hkey|]].
  - pose proof (accepted_self _ _ _ _ _ Hacc) as Hself.
    assert (Hdup : is_duplicate_stop event_info w1 = false).
    { unfold is_duplicate_stop. rewrite Hself.
      destruct (key_in_keys _ _) eqn:E; [|apply andb_false_r].
      apply key_in_keys_spec in E as [v Hv]. congruence. }
    destruct (send_notifies env event_info w w1 Hacc Hdup) as (effs & Hsend & Heff).
    rewrite (Heff (event_is_exclusive _ _ "library.new" Hstop ltac:(discriminate))),
      w_add_nil in Hsend.
    rewrite Hsend, (notify_run _ _ _ _ _ Hcomposed). exact Hfail.
  - unfold is_duplicate_stop. rewrite Hstop. cbn [andb].
    apply key_in_keys_spec. eauto.
Qed.

Lemma failed_delivery_still_stores_key_witness :
  fst (send Sample.env_delivery_fails (Some Sample.stop_event) (Sample.world_with ∅))
  = Raise (OtherException "delivery failed")
  /\ _webhook_msg_keys
       (self (snd (send Sample.env_delivery_fails (Some Sample.stop_event)
                     (Sample.world_with ∅))))
     !! expiring_key Sample.stop_event = Some (0 + 600).
Proof.
  pose proof (failed_delivery_still_stores_key Sample.env_delivery_fails
                Sample.stop_event (Sample.world_with ∅)
                (snd (accept Sample.env_delivery_fails (Some Sample.stop_event)
                        (Sample.world_with ∅)))
                (snd (compose Sample.env_delivery_fails Sample.stop_event
                        (snd (accept Sample.env_delivery_fails (Some Sample.stop_event)
                                (Sample.world_with ∅)))))
                (Build_Message
                   (message_title Sample.stop_event)
                   ("用户：ann" +:+ String "010" ("设备：Emby Web TV set" +:+ String "010"
                      "时间：2025-01-01 12:00:00"))
                   (Some "https://emby.media/notificationicon.png") None)
                (OtherException "delivery failed")
                eq_refl eq_refl eq_refl eq_refl eq_refl) as (H1 & H2 & _).
  split; [exact H1 | exact H2].
Defined.

(** * The notification after the filter *)

(** ** The composition, step by step *)

Lemma compose_parts env event_info w m w2 :
  compose env event_info w = (Ok m, w2) ->
  msg_title m = message_title event_info
  /\ exists wa wb,
      message_content env event_info w = (Ok (msg_text m), wa)
      /\ resolve_image env event_info wa = (Ok (msg_image m), wb)
      /\ resolve_play_link env event_info wb = (Ok (msg_link m), w2).
Proof.
  unfold compose, bind, ret.
  destruct (message_content env event_info w) as [[text|x] wa] eqn:H1; [|discriminate].
  destruct (resolve_image env event_info wa) as [[image|x] wb] eqn:H2; [|discriminate].
  destruct (resolve_play_link env event_info wb) as [[link|x] wc] eqn:H3;
    [|discriminate].
  intros [= <- <-]. split; [reflexivity|]. exists wa, wb. cbn [msg_text msg_image msg_link].
  split; [reflexivity|]. split; [exact H2 | exact H3].
Qed.

Lemma notify_cases env event_info w' :
  composed_then_posted env event_info w' (notify env event_info w').
Proof.
  unfold composed_then_posted.
  destruct (compose env event_info w') as [[m|x] w2] eqn:Hc.
  - rewrite (notify_run _ _ _ _ _ Hc), (composed_self _ _ _ _ _ Hc).
    split; [reflexivity|]. exact (compose_parts _ _ _ _ _ Hc).
  - exact (notify_raise _ _ _ _ _ Hc).
Qed.

(** The text step gives the same answer and the same effects wherever it
    starts. *)
Lemma message_content_run env event_info :
  exists r effs,
    Forall (fun e => is_lookup e = false) effs
    /\ forall w, message_content env event_info w = (r, w_add w effs).
Proof.
  unfold message_content. run_monad.
  destruct (PyStr.truthy (ip event_info)).
  - destruct (get_location env (PyStr.fmt (ip event_info))) as [loc|x].
    + eexists _, [GetLocation _]. split; [repeat constructor|].
      intros w. cbn [fst snd self trace]. reflexivity.
    + eexists (Raise x), [GetLocation _]. split; [repeat constructor|].
      intros w. reflexivity.
  - eexists _, []. split; [constructor|]. intros w. rewrite w_add_nil. reflexivity.
Qed.

(** With a TMDB id the image step makes the one lookup, for a TV
    backdrop. *)
Lemma resolve_image_lookup env event_info w :
  PyStr.truthy (tmdb_id event_info) = true ->
  exists r,
    resolve_image env event_info w
    = (r, w_add w [ObtainSpecificImage (PyStr.fmt (tmdb_id event_info)) TV Backdrop
                     (PyStr.or_none (season_id event_info))
                     (PyStr.or_none (episode_id event_info))]).
Proof.
  intros Htmdb. unfold resolve_image. run_monad. rewrite Htmdb.
  cbn [fst snd self trace].
  destruct (obtain_specific_image env _ TV Backdrop _ _) as [specific|x];
    [|eexists; reflexivity].
  cbn [fst snd].
  destruct (PyStr.truthy (if PyStr.truthy specific then specific
                          else image_url event_info)); eexists; reflexivity.
Qed.

Lemma resolve_play_link_run env event_info w r w' :
  resolve_play_link env event_info w = (r, w') ->
  exists effs, w' = w_add w effs /\ Forall (fun e => is_lookup e = false) effs.
Proof.
  intros H.
  assert (Hg : respects (grows_by (fun e => is_lookup e = false))
                 (resolve_play_link env event_info)).
  { unfold resolve_play_link.
    repeat first [ apply service_infos_grows; intros; reflexivity
                 | apply first_play_url_grows; intros; reflexivity
                 | footprint_step | reflexivity ]. }
  assert (Hs : respects same_self (resolve_play_link env event_info)).
  { unfold resolve_play_link.
    repeat first [apply service_infos_same_self | apply first_play_url_same_self
                 | footprint_step]. }
  destruct (grows_by_run _ _ w r w' Hg H) as (effs & Ht & Hf).
  exists effs. split; [|exact Hf]. apply world_eta; [|exact Ht].
  specialize (Hs w). rewrite H in Hs. exact Hs.
Qed.

(** ** Start events *)




(** ** The rescan and the notification that follows *)

(** C6, as amended.  Item type MOV selects the segment [movies], TV and
    SHOW select [tvshows]; with one of these and a resolvable path the
    trigger runs exactly one command, whose last argument is the url ending
    in that segment.  With any other item type, an absent one included, a
    new-item event runs no command and the trigger ends on a warning; the
    handler then composes the notification from the event and hands it to
    the channel, unless a step of the composition raises, in which case
    [send] raises and nothing is posted. *)
Theorem rescan_segment_then_notification :
  variable_three_of (Some "MOV") = Some "movies"
  /\ variable_three_of (Some "TV") = Some "tvshows"
  /\ variable_three_of (Some "SHOW") = Some "tvshows"
  /\ (forall typ, typ <> Some "MOV" -> typ <> Some "TV" -> typ <> Some "SHOW" ->
                  variable_three_of typ = None)
  /\ (forall env event_info w path pat v seg,
         item_path event_info = Some path ->
         scan_mapping _path_mapping path = Some (pat, v) ->
         variable_three_of (item_type event_info) = Some seg ->
         exists before after,
           _execute_curl_command env event_info w
           = (Ok tt, w_add w (before
                              ++ SubprocessRun (curl_command v (variable_two_of path) seg) 30
                              :: after)%list)
           /\ forallb is_log before = true
           /\ forallb is_log after = true
           /\ last (curl_command v (variable_two_of path) seg)
              = Some (Lit ("http://localhost:7878/api/" +:+ seg)))
  /\ (forall env event_info w,
         event_is event_info "library.new" = true ->
         variable_three_of (item_type event_info) = None ->
         exists effs msg,
           forallb is_log effs = true
           /\ last effs = Some (Log WARNING msg)
           /\ handle env event_info w = notify env event_info (w_add w effs)
           /\ composed_then_posted env event_info (w_add w effs)
                (handle env event_info w)).
Proof.
  split; [reflexivity|]. split; [reflexivity|]. split; [reflexivity|].
  split; [exact variable_three_other|]. split.
  - intros env event_info w path pat v seg Hp Hs H3.
    destruct (execute_curl_runs env event_info w path pat v seg Hp Hs H3)
      as (before & after & Hrun & Hb & Ha & _).
    exists before, after. repeat split; assumption.
  - intros env event_info w Hnew H3.
    assert (Hdup : is_duplicate_stop event_info w = false).
    { unfold is_duplicate_stop.
      rewrite (event_is_exclusive event_info "library.new" "playback.stop" Hnew);
        [reflexivity | discriminate]. }
    destruct (handle_not_duplicate env event_info w Hdup) as (effs & Hh & Hx).
    rewrite Hnew in Hx. destruct Hx as (effs' & -> & Hc).
    destruct (execute_curl_skipped env event_info
                (w_add w [Log INFO "检测到新入库事件，准备执行curl命令"]) H3)
      as (effs2 & msg & Hc2 & Hlog & Hlast).
    rewrite Hc2, w_add_add in Hc.
    assert (Heq : ([Log INFO "检测到新入库事件，准备执行curl命令"] ++ effs2)%list
                  = Log INFO "检测到新入库事件，准备执行curl命令" :: effs')
      by (apply (w_add_inj w); congruence).
    cbn [app] in Heq. injection Heq as <-.
    exists (Log INFO "检测到新入库事件，准备执行curl命令" :: effs2), msg.
    split; [exact Hlog|]. split; [apply last_cons_nonempty; exact Hlast|].
    split; [exact Hh|]. rewrite Hh. apply notify_cases.
Qed.

Lemma rescan_segment_then_notification_witness :
  (exists effs msg,
      forallb is_log effs = true
      /\ last effs = Some (Log WARNING msg)
      /\ handle (Sample.env_at 0) Sample5.new_audiobook (Sample.world_with ∅)
         = notify (Sample.env_at 0) Sample5.new_audiobook
             (w_add (Sample.world_with ∅) effs)
      /\ composed_then_posted (Sample.env_at 0) Sample5.new_audiobook
           (w_add (Sample.world_with ∅) effs)
           (handle (Sample.env_at 0) Sample5.new_audiobook (Sample.world_with ∅)))
  /\ existsb is_rescan
       (trace (snd (send (Sample.env_at 0) (Some Sample5.new_audiobook)
                      (Sample.world_with ∅)))) = false
  /\ last (trace (snd (send (Sample.env_at 0) (Some Sample5.new_audiobook)
                         (Sample.world_with ∅))))
     = Some (PostMessage MediaServer "新入库有声书 Film"
               ("用户：ann" +:+ String "010" ("设备：Emby Web TV set"
                  +:+ String "010" "时间：2025-01-01 12:00:00"))
               (Some "https://emby.media/notificationicon.png") None).
Proof.
  split; [|split; vm_compute; reflexivity].
  apply (proj2 (proj2 (proj2 (proj2 (proj2 rescan_segment_then_notification)))));
    reflexivity.
Defined.

(** C6 as stated fails: for a new audiobook the rescan is skipped with a
    warning, but the image lookup raises and no notification follows. *)
Lemma skipped_rescan_without_notification :
  fst (accept Sample4.env_lookup_fails (Some Sample5.new_audiobook)
         (Sample.world_with ∅)) = Ok true
  /\ variable_three_of (item_type Sample5.new_audiobook) = None
  /\ fst (send Sample4.env_lookup_fails (Some Sample5.new_audiobook)
            (Sample.world_with ∅))
     = Raise (OtherException "lookup failed")
  /\ existsb is_rescan
       (trace (snd (send Sample4.env_lookup_fails (Some Sample5.new_audiobook)
                      (Sample.world_with ∅)))) = false
  /\ existsb is_post
       (trace (snd (send Sample4.env_lookup_fails (Some Sample5.new_audiobook)
                      (Sample.world_with ∅)))) = false.
Proof. repeat split; vm_compute; reflexivity. Qed.

(** C8, as amended.  The trigger never raises and never touches the
    plugin object; a rescan that times out, finds no [curl], raises
    anything else or returns a non-zero status ends in an error entry of
    the log.  Whatever the rescan did, a new-item event goes on with the
    composition of the notification, and the message is handed to the
    channel when the composition returns.  For every accepted event that is
    not a duplicate stop, new items and stops included, an exception raised
    by a step of the composition or by the delivery is not caught: it is
    what [send] raises. *)
Theorem rescan_failures_contained_others_not :
  (forall env event_info w,
      exists effs, _execute_curl_command env event_info w = (Ok tt, w_add w effs))
  /\ (forall env event_info w path pat v seg,
         item_path event_info = Some path ->
         scan_mapping _path_mapping path = Some (pat, v) ->
         variable_three_of (item_type event_info) = Some seg ->
         rescan_failed (subprocess_run env (curl_command v (variable_two_of path) seg)) ->
         exists effs msg,
           _execute_curl_command env event_info w = (Ok tt, w_add w effs)
           /\ last effs = Some (Log ERROR msg))
  /\ (forall env event_info w,
         event_is event_info "library.new" = true ->
         exists effs,
           _execute_curl_command env event_info
             (w_add w [Log INFO "检测到新入库事件，准备执行curl命令"])
           = (Ok tt, w_add w (Log INFO "检测到新入库事件，准备执行curl命令" :: effs))
           /\ handle env event_info w
              = notify env event_info
                  (w_add w (Log INFO "检测到新入库事件，准备执行curl命令" :: effs))
           /\ composed_then_posted env event_info
                (w_add w (Log INFO "检测到新入库事件，准备执行curl命令" :: effs))
                (handle env event_info w))
  /\ (forall env event_info w w1,
         accept env (Some event_info) w = (Ok true, w1) ->
         is_duplicate_stop event_info w = false ->
         exists effs,
           (event_is event_info "library.new" = false -> effs = [])
           /\ composed_then_posted env event_info (w_add w1 effs)
                (send env (Some event_info) w)
           /\ (forall x w2,
                  compose env event_info (w_add w1 effs) = (Raise x, w2) ->
                  send env (Some event_info) w = (Raise x, w2))
           /\ (forall m w2 x,
                  compose env event_info (w_add w1 effs) = (Ok m, w2) ->
                  post_message env MediaServer (msg_title m) (msg_text m)
                    (msg_image m) (msg_link m) = Raise x ->
                  fst (send env (Some event_info) w) = Raise x)).
Proof.
  split; [exact execute_curl_returns|]. split; [|split].
  - intros env event_info w path pat v seg Hp Hs H3 Hf.
    destruct (execute_curl_runs env event_info w path pat v seg Hp Hs H3)
      as (before & after & Hrun & _ & _ & Herr).
    destruct (Herr Hf) as [msg Hmsg].
    exists (before ++ SubprocessRun (curl_command v (variable_two_of path) seg) 30
                   :: after)%list, msg.
    split; [exact Hrun|]. rewrite last_app. cbn [last].
    rewrite (last_cons_nonempty _ _ _ Hmsg). reflexivity.
  - intros env event_info w Hnew.
    assert (Hdup : is_duplicate_stop event_info w = false).
    { unfold is_duplicate_stop.
      rewrite (event_is_exclusive event_info "library.new" "playback.stop" Hnew);
        [reflexivity | discriminate]. }
    destruct (handle_not_duplicate env event_info w Hdup) as (effs & Hh & Hx).
    rewrite Hnew in Hx. destruct Hx as (effs' & -> & Hc).
    exists effs'. split; [exact Hc|]. split; [exact Hh|].
    rewrite Hh. apply notify_cases.
  - intros env event_info w w1 Hacc Hdup.
    assert (Hdup1 : is_duplicate_stop event_info w1 = false).
    { unfold is_duplicate_stop in *.
      rewrite (accepted_self _ _ _ _ _ Hacc). exact Hdup. }
    destruct (send_notifies env event_info w w1 Hacc Hdup1) as (effs & Hsend & Heff).
    exists effs. split; [exact Heff|].
    pose proof (notify_cases env event_info (w_add w1 effs)) as Hn.
    rewrite <- Hsend in Hn. split; [exact Hn|].
    unfold composed_then_posted in Hn. split.
    + intros x w2 Hc. rewrite Hc in Hn. exact Hn.
    + intros m w2 x Hc Hpost. rewrite Hc in Hn. destruct Hn as [Hn _].
      rewrite Hn. exact Hpost.
Qed.

Lemma rescan_failures_contained_others_not_witness :
  (exists effs msg,
      _execute_curl_command Sample.env_curl_timeout Sample5.new_movie
        (Sample.world_with ∅)
      = (Ok tt, w_add (Sample.world_with ∅) effs)
      /\ last effs = Some (Log ERROR msg))
  /\ last (trace (snd (send Sample.env_curl_timeout (Some Sample5.new_movie)
                         (Sample.world_with ∅))))
     = Some (PostMessage MediaServer "新入库电影 Film"
               ("用户：ann" +:+ String "010" ("设备：Emby Web TV set"
                  +:+ String "010" "时间：2025-01-01 12:00:00"))
               (Some "https://emby.media/notificationicon.png") None).
Proof.
  split; [|vm_compute; reflexivity].
  apply (proj1 (proj2 rescan_failures_contained_others_not)
           Sample.env_curl_timeout Sample5.new_movie (Sample.world_with ∅)
           "/media/Movie/Documentary/a.mkv" "/media/Movie/Documentary" 3 "movies");
    [reflexivity | reflexivity | reflexivity | exact I].
Defined.

(** ** The image lookup within [send] *)

Lemma accept_effect_no_lookup e : accept_effect e = true -> is_lookup e = false.
Proof. destruct e; simpl; intros H; first [reflexivity | discriminate H]. Qed.

Lemma rescan_effect_no_lookup e : rescan_effect e = true -> is_lookup e = false.
Proof. destruct e; simpl; intros H; first [reflexivity | discriminate H]. Qed.

Lemma notify_trace_with_lookup env event_info w' text wa :
  PyStr.truthy (tmdb_id event_info) = true ->
  message_content env event_info w' = (Ok text, wa) ->
  exists after,
    trace (snd (notify env event_info w'))
    = (trace wa ++ ObtainSpecificImage (PyStr.fmt (tmdb_id event_info)) TV Backdrop
                     (PyStr.or_none (season_id event_info))
                     (PyStr.or_none (episode_id event_info)) :: after)%list
    /\ Forall (fun e => is_lookup e = false) after.
Proof.
  intros Htmdb Htext.
  destruct (resolve_image_lookup env event_info wa Htmdb) as [ri Hri].
  unfold notify, compose. unfold bind at 1 2. rewrite Htext.
  unfold bind at 1. rewrite Hri. destruct ri as [image|x].
  - unfold bind at 1.
    destruct (resolve_play_link env event_info _) as [[link|x] wc] eqn:Hl;
      destruct (resolve_play_link_run _ _ _ _ _ Hl) as (pe & -> & Hpe).
    + unfold ret, bind. rewrite update_keys_run. unfold call.
      cbn [snd fst self trace w_add msg_title msg_text msg_image msg_link].
      exists (pe ++ [PostMessage MediaServer (message_title event_info) text image
                       link])%list.
      split; [rewrite <- !app_assoc; reflexivity|].
      apply Forall_app. split; [exact Hpe | repeat constructor].
    + cbn [snd w_add trace]. exists pe. split; [|exact Hpe].
      rewrite <- !app_assoc. reflexivity.
  - cbn [snd w_add trace]. exists []. split; [reflexivity | constructor].
Qed.

(** C10, as amended.  For every accepted event that is not a duplicate
    stop, carries a TMDB id and whose text is composed, [send] makes the
    image lookup exactly once, with the TMDB id of the event, media type TV
    and image type Backdrop, whatever the item type of the event.  An event
    that the filter rejects or that is a duplicate stop makes no lookup,
    and no run of [send] makes a lookup with other values for the two
    arguments. *)
Theorem send_looks_up_tv_backdrop (env : Env) (event_info : WebhookEventInfo)
    (w w1 wa : World) (text : string)
    (Hacc : accept env (Some event_info) w = (Ok true, w1))
    (Hdup : is_duplicate_stop event_info w = false)
    (Htmdb : PyStr.truthy (tmdb_id event_info) = true)
    (Htext : message_content env event_info w1 = (Ok text, wa)) :
  (exists before after,
      trace (snd (send env (Some event_info) w))
      = (trace w ++ before
         ++ ObtainSpecificImage (PyStr.fmt (tmdb_id event_info)) TV Backdrop
              (PyStr.or_none (season_id event_info))
              (PyStr.or_none (episode_id event_info))
         :: after)%list
      /\ Forall (fun e => is_lookup e = false) before
      /\ Forall (fun e => is_lookup e = false) after)
  /\ (forall w0,
         trace (snd (resolve_image env event_info w0))
         = (trace w0 ++ [ObtainSpecificImage (PyStr.fmt (tmdb_id event_info)) TV
                           Backdrop
                           (PyStr.or_none (season_id event_info))
                           (PyStr.or_none (episode_id event_info))])%list)
  /\ (forall event_data w0,
         exists effs,
           trace (snd (send env event_data w0)) = (trace w0 ++ effs)%list
           /\ Forall lookup_is_tv_backdrop effs)
  /\ (forall event_data w0,
         fst (accept env event_data w0) <> Ok true
         \/ (exists e0, event_data = Some e0 /\ is_duplicate_stop e0 w0 = true) ->
         exists effs,
           trace (snd (send env event_data w0)) = (trace w0 ++ effs)%list
           /\ Forall (fun e => is_lookup e = false) effs).
Proof.
  split; [|split; [|split]].
  - destruct (accept_run _ _ _ _ _ Hacc) as (e_acc & -> & Hfa).
    assert (Hdup1 : is_duplicate_stop event_info (w_add w e_acc) = false).
    { rewrite (is_duplicate_stop_self _ w (w_add w e_acc) eq_refl). exact Hdup. }
    destruct (handle_not_duplicate_effs env event_info (w_add w e_acc) Hdup1)
      as (e_res & Hh & Hfr & _ & _).
    rewrite (send_accepted _ _ _ _ Hacc), Hh, w_add_add.
    destruct (message_content_run env event_info) as (r & te & Hte & Hrun).
    assert (Hr : r = Ok text).
    { rewrite Hrun in Htext. congruence. }
    subst r.
    destruct (notify_trace_with_lookup env event_info (w_add w (e_acc ++ e_res))
                text _ Htmdb (Hrun _)) as (after & Ht & Hafter).
    exists (e_acc ++ e_res ++ te)%list, after. split; [|split; [|exact Hafter]].
    + rewrite Ht. cbn [w_add trace]. rewrite <- !app_assoc. reflexivity.
    + apply Forall_app. split.
      * eapply Forall_impl; [exact Hfa | exact accept_effect_no_lookup].
      * apply Forall_app. split; [|exact Hte].
        eapply Forall_impl; [exact Hfr | exact rescan_effect_no_lookup].
  - intros w0. destruct (resolve_image_lookup env event_info w0 Htmdb) as [r Hr].
    rewrite Hr. reflexivity.
  - intros event_data w0. exact (send_lookups env event_data w0).
  - intros event_data w0 Hno.
    destruct (send_outcome_holds env event_data w0)
      as [r e_acc Hacc0 Hr Hfa
         | e e_acc He Hacc0 Hfa Hdup0
         | e e_acc e_res e_cmp x He Hacc0 Hfa Hdup0 Hfr Hn Hnew Hc Hfc
         | e e_acc e_res e_cmp m He Hacc0 Hfa Hdup0 Hfr Hn Hnew Hc Hfc].
    + exists e_acc. split; [reflexivity|].
      eapply Forall_impl; [exact Hfa | exact accept_effect_no_lookup].
    + exists e_acc. split; [reflexivity|].
      eapply Forall_impl; [exact Hfa | exact accept_effect_no_lookup].
    + exfalso. destruct Hno as [Hno | (e0 & He0 & Hd0)].
      * apply Hno. rewrite Hacc0. reflexivity.
      * rewrite He in He0. injection He0 as <-. congruence.
    + exfalso. destruct Hno as [Hno | (e0 & He0 & Hd0)].
      * apply Hno. rewrite Hacc0. reflexivity.
      * rewrite He in He0. injection He0 as <-. congruence.
Qed.

Lemma send_looks_up_tv_backdrop_witness :
  item_type Sample5.movie_start = Some "MOV"
  /\ List.filter is_lookup
       (trace (snd (send (Sample.env_at 0) (Some Sample5.movie_start)
                      (Sample.world_with ∅))))
     = [ObtainSpecificImage "603" TV Backdrop None None]
  /\ exists before after,
      trace (snd (send (Sample.env_at 0) (Some Sample5.movie_start)
                    (Sample.world_with ∅)))
      = (trace (Sample.world_with ∅) ++ before
         ++ ObtainSpecificImage (PyStr.fmt (tmdb_id Sample5.movie_start)) TV Backdrop
              (PyStr.or_none (season_id Sample5.movie_start))
              (PyStr.or_none (episode_id Sample5.movie_start))
         :: after)%list
      /\ Forall (fun e => is_lookup e = false) before
      /\ Forall (fun e => is_lookup e = false) after.
Proof.
  split; [reflexivity|]. split; [vm_compute; reflexivity|].
  refine (proj1 (send_looks_up_tv_backdrop (Sample.env_at 0) Sample5.movie_start
                   (Sample.world_with ∅)
                   (snd (accept (Sample.env_at 0) (Some Sample5.movie_start)
                           (Sample.world_with ∅)))
                   _ _ eq_refl eq_refl eq_refl _)).
  vm_compute. reflexivity.
Defined.

(** C10 as stated fails: a [playback.stop] event that carries a TMDB id
    and whose key is in the dictionary is accepted and ends at the
    duplicate test; no image is looked up. *)
Lemma duplicate_stop_makes_no_lookup :
  PyStr.truthy (tmdb_id Sample5.movie_stop) = true
  /\ fst (accept (Sample.env_at 100) (Some Sample5.movie_stop)
            (Sample.world_with {[ Sample.key := 600 ]})) = Ok true
  /\ fst (send (Sample.env_at 100) (Some Sample5.movie_stop)
            (Sample.world_with {[ Sample.key := 600 ]})) = Ok tt
  /\ existsb is_lookup
       (trace (snd (send (Sample.env_at 100) (Some Sample5.movie_stop)
                      (Sample.world_with {[ Sample.key := 600 ]})))) = false.
Proof. repeat split; vm_compute; reflexivity. Qed.

(** C8 as stated fails in both of its later parts.  A new movie whose
    rescan times out and whose image lookup raises: the timeout is
    contained, but [send] raises what the lookup raised and nothing is
    posted.  A new movie whose rescan succeeds and whose delivery raises:
    the message is handed to the channel and [send] raises what the channel
    raised. *)
Lemma failures_after_rescan_leave_send :
  (fst (accept Sample6.env_rescan_and_lookup_fail (Some Sample6.new_movie_with_tmdb)
          (Sample.world_with ∅)) = Ok true
   /\ existsb is_rescan
        (trace (snd (send Sample6.env_rescan_and_lookup_fail
                       (Some Sample6.new_movie_with_tmdb) (Sample.world_with ∅))))
      = true
   /\ fst (send Sample6.env_rescan_and_lookup_fail (Some Sample6.new_movie_with_tmdb)
             (Sample.world_with ∅))
      = Raise (OtherException "lookup failed")
   /\ existsb is_post
        (trace (snd (send Sample6.env_rescan_and_lookup_fail
                       (Some Sample6.new_movie_with_tmdb) (Sample.world_with ∅))))
      = false)
  /\ (fst (accept Sample.env_delivery_fails (Some Sample5.new_movie)
             (Sample.world_with ∅)) = Ok true
      /\ existsb is_post
           (trace (snd (send Sample.env_delivery_fails (Some Sample5.new_movie)
                          (Sample.world_with ∅)))) = true
      /\ fst (send Sample.env_delivery_fails (Some Sample5.new_movie)
                (Sample.world_with ∅))
         = Raise (OtherException "delivery failed")).
Proof. repeat split; vm_compute; reflexivity. Qed.
